(** * scanfix: the image handler ([src/image_handler.py])

    A shallow embedding of [ImageHandler], the class that ingests scanned
    page images from a device directory and exports them, and the proofs
    of the properties stated about it.

    Conventions of the embedding.
    - A Python [str] is a [string]: a sequence of code points below 256.
    - A Python [int] is a [Z]; a Python [float] is a binary64 value of
      [SpecFloat] (precision 53, exponent bound 1024).
    - A raised exception is the [Raise] case of [result].
    - What the operating system and the image libraries answer during a
      call (directory listing, decoding, colour conversion of an array
      that is not a colour image, existence of a path, outcome of a
      write, the clock) is read from a record [world]; what a call does
      to the file system is the list of [effect]s it returns.
    - Paths follow [posixpath]. *)

From Stdlib Require Import ZArith List String Ascii Bool Lia.
From Stdlib Require Import Permutation Sorted Mergesort Orders SpecFloat.
Import ListNotations.

Local Open Scope string_scope.
Local Open Scope Z_scope.

(** ** Exceptions and results *)

Inductive exn : Type :=
| ValueError
| IndexError
| TypeError
| ZeroDivisionError
| OverflowError
| StopIteration
| OSError
| cv2_error.

Inductive result (A : Type) : Type :=
| Ok (a : A)
| Raise (e : exn).

Arguments Ok {A} a.
Arguments Raise {A} e.

Definition bind {A B : Type} (r : result A) (k : A -> result B) : result B :=
  match r with
  | Ok a => k a
  | Raise e => Raise e
  end.

Notation "x <- r ;; k" := (bind r (fun x => k))
  (at level 61, r at next level, right associativity).

(** A list comprehension or [map] whose body may raise: the first raise
    wins. *)
Fixpoint mapM {A B : Type} (f : A -> result B) (xs : list A) : result (list B) :=
  match xs with
  | [] => Ok []
  | x :: r => y <- f x ;; ys <- mapM f r ;; Ok (y :: ys)
  end.

(** ** Strings *)

Module Str.

Definition code (c : ascii) : Z := Z.of_nat (nat_of_ascii c).

(** [s.startswith(p)] *)
Definition startswith (s p : string) : bool := String.prefix p s.

(** [s[n:]] *)
Fixpoint drop (n : nat) (s : string) : string :=
  match n, s with
  | O, _ => s
  | S _, EmptyString => EmptyString
  | S m, String _ r => drop m r
  end.

(** [s.split('.')[0]]: the text before the first dot. *)
Fixpoint before_dot (s : string) : string :=
  match s with
  | EmptyString => EmptyString
  | String c r => if Ascii.eqb c "." then EmptyString else String c (before_dot r)
  end.

(** [s.lstrip('0')] *)
Fixpoint lstrip_zeros (s : string) : string :=
  match s with
  | EmptyString => EmptyString
  | String c r => if Ascii.eqb c "0" then lstrip_zeros r else s
  end.

(** [s.lower()]; below 256 only A-Z and the accented capitals have a
    lower-case form, 32 code points above. *)
Definition lower_char (c : ascii) : ascii :=
  let n := code c in
  if ((65 <=? n) && (n <=? 90)) || ((192 <=? n) && (n <=? 222) && negb (n =? 215))
  then ascii_of_nat (nat_of_ascii c + 32)
  else c.

Fixpoint lower (s : string) : string :=
  match s with
  | EmptyString => EmptyString
  | String c r => String (lower_char c) (lower r)
  end.

(** [x in l] for a list of strings. *)
Definition mem (x : string) (l : list string) : bool :=
  existsb (String.eqb x) l.

(** The text after the last slash, when there is a slash. *)
Fixpoint after_last_slash (s : string) : option string :=
  match s with
  | EmptyString => None
  | String c r =>
      match after_last_slash r with
      | Some t => Some t
      | None => if Ascii.eqb c "/" then Some r else None
      end
  end.

Fixpoint has_slash (s : string) : bool :=
  match s with
  | EmptyString => false
  | String c r => Ascii.eqb c "/" || has_slash r
  end.

Fixpoint ends_with_slash (s : string) : bool :=
  match s with
  | EmptyString => false
  | String c EmptyString => Ascii.eqb c "/"
  | String _ r => ends_with_slash r
  end.

(** [n] copies of the character [c]. *)
Fixpoint replicate (n : nat) (c : ascii) : string :=
  match n with
  | O => EmptyString
  | S m => String c (replicate m c)
  end.

End Str.

(** [os.path.split(p)[-1]] *)
Definition os_path_basename (p : string) : string :=
  match Str.after_last_slash p with
  | Some t => t
  | None => p
  end.

(** [os.path.join(a, b)] *)
Definition os_path_join (a b : string) : string :=
  if Str.startswith b "/" then b
  else if String.eqb a "" || Str.ends_with_slash a then a ++ b
  else a ++ "/" ++ b.

(** ** [int(str)] *)

Module PyInt.

(** White space that [int] skips on both sides of the number. *)
Definition is_space (c : ascii) : bool :=
  let n := Str.code c in
  ((9 <=? n) && (n <=? 13)) || (n =? 32) || (n =? 133) || (n =? 160).

Definition is_digit (c : ascii) : bool :=
  let n := Str.code c in (48 <=? n) && (n <=? 57).

Definition digit (c : ascii) : Z := Str.code c - 48.

Fixpoint lstrip (cs : list ascii) : list ascii :=
  match cs with
  | [] => []
  | c :: r => if is_space c then lstrip r else cs
  end.

Definition strip (cs : list ascii) : list ascii :=
  rev (lstrip (rev (lstrip cs))).

(** Decimal digits, single underscores allowed between two digits.
    [after_digit] tells whether the previous character was a digit. *)
Fixpoint digits (acc : Z) (after_digit : bool) (cs : list ascii) : option Z :=
  match cs with
  | [] => if after_digit then Some acc else None
  | c :: r =>
      if is_digit c then digits (10 * acc + digit c) true r
      else if Ascii.eqb c "_" then
        (if after_digit then digits acc false r else None)
      else None
  end.

Definition parse (s : string) : option Z :=
  match strip (list_ascii_of_string s) with
  | c :: r =>
      if Ascii.eqb c "-" then option_map Z.opp (digits 0 false r)
      else if Ascii.eqb c "+" then digits 0 false r
      else digits 0 false (c :: r)
  | [] => None
  end.

(** [int(s)]: the value, or [ValueError].  The interpreter's limit on
    the number of digits (4300) is beyond the length of a file name. *)
Definition int (s : string) : result Z :=
  match parse s with
  | Some z => Ok z
  | None => Raise ValueError
  end.

End PyInt.

(** ** Configuration *)

(** [SAVE_DPI] is a number: a Python int or a Python float. *)
Inductive number : Type :=
| PyInt (z : Z)
| PyFloat (f : spec_float).

Record config : Type := {
  DEVICE_PATH : string;
  IMAGE_PREFIX : string;
  IMAGE_EXTENSION : string;
  READ_GRAYSCALE : bool;
  LAST_IMAGE_IDX : Z;
  SAVE_PATH : string;
  SAVE_PREFIX : string;
  SAVE_FORMAT : string;
  SAVE_DPI : number
}.

(** ** The index parser: [ImageHandler.image_name_to_index] *)

Definition image_name_to_index (cfg : config) (name : string) : result Z :=
  let name := os_path_basename name in
  let name :=
    if Str.startswith name (IMAGE_PREFIX cfg)
    then Str.drop (String.length (IMAGE_PREFIX cfg)) name
    else name in
  let name := Str.before_dot name in
  let idx := Str.lstrip_zeros name in
  PyInt.int idx.

(** ** Images and the calls into OpenCV *)

(** The pixel content of an array is not computed: it is recorded as the
    operations applied to some source content. *)
Inductive raster : Type :=
| Source (name : string)
| BGR2RGB (r : raster)
| Resized (r : raster) (w h : Z).

(** A [numpy] raster of 8-bit samples as [cv2.imread] returns it: shape
    [(rows, cols)] when [channels] is [None], [(rows, cols, c)] when it is
    [Some c]. *)
Record image : Type := {
  rows : Z;
  cols : Z;
  channels : option Z;
  data : raster
}.

(** [len(img.shape)] *)
Definition ndim (img : image) : Z :=
  match channels img with
  | None => 2
  | Some _ => 3
  end.

Definition nonempty (img : image) : bool := (0 <? rows img) && (0 <? cols img).

Definition INT_MAX : Z := 2147483647.

(** [cv2.resize(img, (w, h))]: the result has [h] rows and [w] columns;
    an array of one channel comes back with two dimensions.  Running out
    of memory is not modelled. *)
Definition cv2_resize (img : image) (dsize : Z * Z) : result image :=
  let '(w, h) := dsize in
  if nonempty img && (0 <? w) && (w <=? INT_MAX) && (0 <? h) && (h <=? INT_MAX)
  then Ok {| rows := h; cols := w;
             channels := match channels img with
                         | Some 1 => None
                         | c => c
                         end;
             data := Resized (data img) w h |}
  else Raise cv2_error.

Inductive imread_flag : Type := IMREAD_GRAYSCALE | IMREAD_COLOR.

(** ** Pillow *)

Inductive pil_mode : Type := L | LA | RGB | RGBA.

Record pil_image : Type := { mode : pil_mode; raster_of : image }.

(** [Image.fromarray(img)] for 8-bit samples. *)
Definition Image_fromarray (img : image) : result pil_image :=
  match channels img with
  | None => Ok {| mode := L; raster_of := img |}
  | Some 2 => Ok {| mode := LA; raster_of := img |}
  | Some 3 => Ok {| mode := RGB; raster_of := img |}
  | Some 4 => Ok {| mode := RGBA; raster_of := img |}
  | Some _ => Raise TypeError
  end.

(** ** The world outside the program *)

(** [time.localtime()], the fields [strftime] reads. *)
Record struct_time : Type := {
  tm_year : Z;
  tm_mon : Z;
  tm_mday : Z;
  tm_hour : Z;
  tm_min : Z
}.

Inductive imwrite_outcome : Type :=
| Written          (* the file is written, [True] is returned *)
| NotWritten       (* [False] is returned, nothing is written *)
| ImwriteError.    (* [cv2.error], e.g. no encoder for the extension *)

Record world : Type := {
  glob_glob : string -> list string;
  cv2_imread : string -> imread_flag -> option image;
  cv2_cvtColor_other : image -> result image;
  os_path_exists : string -> bool;
  os_mkdir : string -> option exn;
  cv2_imwrite : string -> image -> imwrite_outcome;
  pdf_save : string -> list pil_image -> option exn;
  localtime : struct_time
}.

(** What a call leaves on the file system. *)
Inductive effect : Type :=
| Mkdir (path : string)
| ImageFile (path : string) (img : image)
| PdfFile (path : string) (pages : list pil_image).

(** [cv2.cvtColor(img, cv2.COLOR_BGR2RGB)].  A non-empty array of 3 or
    4 channels comes back with 3 channels, the first and the third
    swapped.  For any other array (two dimensions, another number of
    channels, empty) what the call does, raise or return, is the
    library's answer, read from the world. *)
Definition cv2_cvtColor_BGR2RGB (W : world) (img : image) : result image :=
  match channels img with
  | Some c =>
      if nonempty img && ((c =? 3) || (c =? 4))
      then Ok {| rows := rows img; cols := cols img; channels := Some 3;
                 data := BGR2RGB (data img) |}
      else cv2_cvtColor_other W img
  | None => cv2_cvtColor_other W img
  end.

(** ** [numpy] arrays, as lists *)

(** [a[idx]] for an array of positions (fancy indexing). *)
Definition np_take {A : Type} (a : list A) (idx : list nat) : result (list A) :=
  mapM (fun i => match nth_error a i with
                 | Some x => Ok x
                 | None => Raise IndexError
                 end) idx.

(** [np.where(mask)[0]]: the positions where the mask holds, ascending. *)
Fixpoint np_where_from (k : nat) (mask : list bool) : list nat :=
  match mask with
  | [] => []
  | b :: r => if b then k :: np_where_from (S k) r else np_where_from (S k) r
  end.

Definition np_where (mask : list bool) : list nat := np_where_from 0 mask.

(** [np.argsort] with its default kind is not a stable sort: all that is
    known of its result is that it is a permutation of the positions that
    puts the keys in non-decreasing order. *)
Class ArgSort : Type := {
  np_argsort : list Z -> list nat;
  np_argsort_perm :
    forall a, Permutation (np_argsort a) (seq 0 (List.length a));
  np_argsort_sorted :
    forall a, Sorted Z.le (map (fun i => nth i a 0) (np_argsort a))
}.

(** One such sort: merge sort on the (key, position) pairs. *)
Module KeyOrder <: TotalLeBool.
Definition t : Type := Z * nat.
Definition leb (x y : t) : bool := fst x <=? fst y.
Lemma leb_total : forall x y, leb x y = true \/ leb y x = true.
Proof.
  intros x y. unfold leb.
  destruct (Z.leb_spec (fst x) (fst y)); [left | right].
  - reflexivity.
  - apply Z.leb_le. lia.
Qed.
End KeyOrder.

Module KeySort := Sort KeyOrder.

Definition merge_argsort (a : list Z) : list nat :=
  map snd (KeySort.sort (combine a (seq 0 (List.length a)))).

(** Another such sort: the same merge sort, fed the pairs from the last
    to the first, which leaves equal keys in the opposite order. *)
Definition reverse_argsort (a : list Z) : list nat :=
  map snd (KeySort.sort (rev (combine a (seq 0 (List.length a))))).

(** ** Python floats *)

Module Float.

Definition prec : Z := 53.
Definition emax : Z := 1024.

(** The integer [z] as an exact, unrounded operand. *)
Definition exact (z : Z) : spec_float :=
  match z with
  | Z0 => S754_zero false
  | Zpos p => S754_finite false p 0
  | Zneg p => S754_finite true p 0
  end.

(** [float(z)], rounded to nearest even. *)
Definition of_int (z : Z) : spec_float := binary_normalize prec emax z 0 false.

Definition is_zero (f : spec_float) : bool :=
  match f with
  | S754_zero _ => true
  | _ => false
  end.

(** [a / b] for two ints: the exact quotient, rounded once. *)
Definition int_truediv (a b : Z) : result spec_float :=
  if b =? 0 then Raise ZeroDivisionError
  else match SFdiv prec emax (exact a) (exact b) with
       | S754_infinity _ => Raise OverflowError
       | q => Ok q
       end.

(** [a / y] for an int and a float. *)
Definition truediv (a : Z) (y : number) : result spec_float :=
  match y with
  | PyInt b => int_truediv a b
  | PyFloat f =>
      if is_zero f then Raise ZeroDivisionError
      else Ok (SFdiv prec emax (of_int a) f)
  end.

(** [a * x] for an int and a float. *)
Definition mul (a : Z) (x : spec_float) : spec_float :=
  SFmul prec emax (of_int a) x.

(** [int(x)]: truncation toward zero. *)
Definition to_int (x : spec_float) : result Z :=
  match x with
  | S754_nan => Raise ValueError
  | S754_infinity _ => Raise OverflowError
  | S754_zero _ => Ok 0
  | S754_finite s m e =>
      let a := if 0 <=? e then Zpos m * 2 ^ e else Zpos m / 2 ^ (- e) in
      Ok (if s then - a else a)
  end.

End Float.

(** ** The handler *)

Record ImageHandler : Type := {
  CFG : config;
  flag : imread_flag;
  cnt : nat;
  files : list string;
  indices : list Z;
  images : list (option image)
}.

Definition IMAGE_FORMATS : list string := ["jpg"; "png"; "bmp"; "tiff"].

(** [resize_to_A4], lines 111 and 112: the size handed to [cv2.resize]. *)
Definition A4_size (cfg : config) : result (Z * Z) :=
  r <- Float.truediv 300 (SAVE_DPI cfg) ;;
  h <- Float.to_int (Float.mul 3508 r) ;;
  r <- Float.truediv 300 (SAVE_DPI cfg) ;;
  w <- Float.to_int (Float.mul 2480 r) ;;
  Ok (w, h).

Definition resize_to_A4 (cfg : config) (img : image) : result image :=
  wh <- A4_size cfg ;;
  cv2_resize img wh.

(** ** Calls that act on the file system *)

(** A computation that leaves effects behind and returns or raises; the
    effects made before a raise stay. *)
Definition io (A : Type) : Type := (list effect * result A)%type.

Definition io_ret {A : Type} (a : A) : io A := ([], Ok a).

Definition io_bind {A B : Type} (m : io A) (k : A -> io B) : io B :=
  match m with
  | (t, Ok a) => let '(t', r) := k a in ((t ++ t')%list, r)
  | (t, Raise e) => (t, Raise e)
  end.

Definition lift {A : Type} (r : result A) : io A := ([], r).

Notation "x <~ m ;; k" := (io_bind m (fun x => k))
  (at level 61, m at next level, right associativity).

(** ** [time.strftime('%d_%m_%y-%H_%M')] *)

Definition digit_char (n : Z) : ascii := ascii_of_nat (48 + Z.to_nat (n mod 10)).

Definition two_digits (n : Z) : string :=
  String (digit_char (n / 10)) (String (digit_char n) EmptyString).

Definition strftime_d_m_y_H_M (t : struct_time) : string :=
  two_digits (tm_mday t) ++ "_" ++ two_digits (tm_mon t) ++ "_"
  ++ two_digits (tm_year t mod 100) ++ "-"
  ++ two_digits (tm_hour t) ++ "_" ++ two_digits (tm_min t).

Section Handler.

Context {AS : ArgSort}.
Variable W : world.

Definition set_files (h : ImageHandler) (fs : list string) : ImageHandler :=
  {| CFG := CFG h; flag := flag h; cnt := cnt h;
     files := fs; indices := indices h; images := images h |}.

Definition set_indices (h : ImageHandler) (ix : list Z) : ImageHandler :=
  {| CFG := CFG h; flag := flag h; cnt := cnt h;
     files := files h; indices := ix; images := images h |}.

Definition set_images (h : ImageHandler) (ims : list (option image)) : ImageHandler :=
  {| CFG := CFG h; flag := flag h; cnt := cnt h;
     files := files h; indices := indices h; images := ims |}.

Definition set_cnt (h : ImageHandler) (n : nat) : ImageHandler :=
  {| CFG := CFG h; flag := flag h; cnt := n;
     files := files h; indices := indices h; images := images h |}.

(** [read_from_device] *)
Definition read_from_device (h : ImageHandler) : ImageHandler :=
  let filenames_local := IMAGE_PREFIX (CFG h) ++ "*." ++ IMAGE_EXTENSION (CFG h) in
  let path := os_path_join (DEVICE_PATH (CFG h)) filenames_local in
  set_files h (glob_glob W path).

(** [load] *)
Definition load (h : ImageHandler) : ImageHandler :=
  set_images h (map (fun f => cv2_imread W f (flag h)) (files h)).

(** [sort_names_by_indices] *)
Definition sort_names_by_indices (h : ImageHandler) : result ImageHandler :=
  ix <- mapM (image_name_to_index (CFG h)) (files h) ;;
  let order := np_argsort ix in
  ix' <- np_take ix order ;;
  fs' <- np_take (files h) order ;;
  Ok (set_files (set_indices h ix') fs').

(** [discard_old] *)
Definition discard_old (h : ImageHandler) : result ImageHandler :=
  let files_not_used :=
    np_where (map (fun i => LAST_IMAGE_IDX (CFG h) <? i) (indices h)) in
  fs' <- np_take (files h) files_not_used ;;
  ix' <- np_take (indices h) files_not_used ;;
  Ok (set_indices (set_files h fs') ix').

(** [__init__] *)
Definition init (cfg : config) : result ImageHandler :=
  let h := {| CFG := cfg;
              flag := if READ_GRAYSCALE cfg then IMREAD_GRAYSCALE else IMREAD_COLOR;
              cnt := 0%nat; files := []; indices := []; images := [] |} in
  let h := read_from_device h in
  h <- sort_names_by_indices h ;;
  h <- discard_old h ;;
  Ok (load h).

(** [__iter__]: the cursor goes back to the start; the handler itself is
    the iterator. *)
Definition iter (h : ImageHandler) : ImageHandler := set_cnt h 0%nat.

(** [__next__]: what is returned or raised, and the handler afterwards. *)
Definition next (h : ImageHandler) : result (string * option image) * ImageHandler :=
  if (cnt h =? List.length (files h))%nat then (Raise StopIteration, h)
  else
    match nth_error (files h) (cnt h) with
    | None => (Raise IndexError, h)
    | Some filename =>
        match nth_error (images h) (cnt h) with
        | None => (Raise IndexError, h)
        | Some img =>
            (Ok (os_path_basename filename, img), set_cnt h (S (cnt h)))
        end
    end.

(** [__len__] *)
Definition len (h : ImageHandler) : nat := List.length (files h).

(** The builtin [max] of a sequence of ints. *)
Definition py_max (xs : list Z) : result Z :=
  match xs with
  | [] => Raise ValueError
  | x :: r => Ok (fold_left Z.max r x)
  end.

(** [max], the method *)
Definition max (h : ImageHandler) : result Z :=
  if (List.length (files h) =? 0)%nat then Ok (-1)
  else py_max (indices h).

(** [get_pdf_filename] *)
Definition get_pdf_filename (h : ImageHandler) : string :=
  let filename_no_ext :=
    SAVE_PREFIX (CFG h) ++ "_" ++ strftime_d_m_y_H_M (localtime W) ++ ".pdf" in
  os_path_join (SAVE_PATH (CFG h)) filename_no_ext.

Definition mkdir (path : string) : io unit :=
  match os_mkdir W path with
  | None => ([Mkdir path], Ok tt)
  | Some e => ([], Raise e)
  end.

Definition imwrite (path : string) (img : image) : io unit :=
  match cv2_imwrite W path img with
  | Written => ([ImageFile path img], Ok tt)
  | NotWritten => ([], Ok tt)
  | ImwriteError => ([], Raise cv2_error)
  end.

(** The loop [for i in range(len(images))] of [save], from position [i]
    on. *)
Fixpoint save_as_images (h : ImageHandler) (i : nat) (imgs : list image) : io unit :=
  match imgs with
  | [] => io_ret tt
  | img :: r =>
      f <~ lift (match nth_error (files h) i with
                 | Some f => Ok f
                 | None => Raise IndexError
                 end) ;;
      let filename := os_path_join (SAVE_PATH (CFG h)) (os_path_basename f) in
      _ <~ imwrite filename img ;;
      save_as_images h (S i) r
  end.

(** The [else] branch of [save]: one file with all pages. *)
Definition save_as_pdf (h : ImageHandler) (imgs : list image) : io unit :=
  pil_imgs <~ lift (mapM Image_fromarray imgs) ;;
  match pil_imgs with
  | [] => lift (Raise IndexError)
  | root :: pil_imgs =>
      let filename := get_pdf_filename h in
      match pdf_save W filename (root :: pil_imgs) with
      | None => ([PdfFile filename (root :: pil_imgs)], Ok tt)
      | Some e => ([], Raise e)
      end
  end.

(** [save] *)
Definition save (h : ImageHandler) (imgs : list image) : io unit :=
  if (List.length (files h) =? 0)%nat then io_ret tt
  else
    _ <~ (if os_path_exists W (SAVE_PATH (CFG h)) then io_ret tt
          else mkdir (SAVE_PATH (CFG h))) ;;
    first <~ lift (match imgs with
                   | [] => Raise IndexError
                   | img :: _ => Ok img
                   end) ;;
    imgs <~ lift (if ndim first =? 3
                  then mapM (cv2_cvtColor_BGR2RGB W) imgs
                  else Ok imgs) ;;
    imgs <~ lift (mapM (resize_to_A4 (CFG h)) imgs) ;;
    if Str.mem (Str.lower (SAVE_FORMAT (CFG h))) IMAGE_FORMATS
    then save_as_images h 0%nat imgs
    else save_as_pdf h imgs.

(** A [for] loop over the handler: [__iter__], then [__next__] until it
    raises [StopIteration].  [None] when the fuel does not suffice. *)
Fixpoint next_loop (fuel : nat) (h : ImageHandler)
  : option (result (list (string * option image)) * ImageHandler) :=
  match fuel with
  | O => None
  | S fuel' =>
      match next h with
      | (Ok item, h') =>
          match next_loop fuel' h' with
          | Some (Ok items, h'') => Some (Ok (item :: items), h'')
          | other => other
          end
      | (Raise StopIteration, h') => Some (Ok [], h')
      | (Raise e, h') => Some (Raise e, h')
      end
  end.

Definition for_loop (fuel : nat) (h : ImageHandler) :=
  next_loop fuel (iter h).

End Handler.

(** ** What the statements below speak of *)

(** The handler built by [ImageHandler(cfg)] in the world [W].  [numpy]
    holds the indices as 64-bit integers: the embedding covers the
    directories whose indices fit, and a watermark that fits. *)

Definition int64 (z : Z) : bool := (- 2 ^ 63 <=? z) && (z <? 2 ^ 63).

Definition scanned (W : world) (cfg : config) : list string :=
  glob_glob W (os_path_join (DEVICE_PATH cfg)
                 (IMAGE_PREFIX cfg ++ "*." ++ IMAGE_EXTENSION cfg)).

Definition in_int64_range (W : world) (cfg : config) : bool :=
  int64 (LAST_IMAGE_IDX cfg)
  && forallb (fun f => match image_name_to_index cfg f with
                       | Ok z => int64 z
                       | Raise _ => true
                       end) (scanned W cfg).

Definition constructed {AS : ArgSort} (W : world) (cfg : config) (h : ImageHandler) : Prop :=
  in_int64_range W cfg = true /\ init W cfg = Ok h.

(** The files whose effects are image files, in the order written. *)
Fixpoint image_files (t : list effect) : list (string * image) :=
  match t with
  | [] => []
  | ImageFile p img :: r => (p, img) :: image_files r
  | _ :: r => image_files r
  end.

(** Every file written, in the order written, with its number of pages. *)
Fixpoint files_written (t : list effect) : list (string * nat) :=
  match t with
  | [] => []
  | ImageFile p _ :: r => (p, 1%nat) :: files_written r
  | PdfFile p pages :: r => (p, List.length pages) :: files_written r
  | Mkdir _ :: r => files_written r
  end.

(** The directories created, in the order created. *)
Fixpoint dirs_created (t : list effect) : list string :=
  match t with
  | [] => []
  | Mkdir p :: r => p :: dirs_created r
  | _ :: r => dirs_created r
  end.

(** Selecting by a mask keeps the entries where the mask holds, in
    order. *)
Fixpoint select {A : Type} (mask : list bool) (a : list A) : list A :=
  match mask, a with
  | m :: ms, x :: r => if m then x :: select ms r else select ms r
  | _, _ => []
  end.

(** The test of [discard_old]: the index is above the watermark. *)
Definition newer (cfg : config) (i : Z) : bool := LAST_IMAGE_IDX cfg <? i.

(** What holds of a handler once it is built. *)
Record consistent (W : world) (h : ImageHandler) : Prop := {
  indices_of_files :
    mapM (image_name_to_index (CFG h)) (files h) = Ok (indices h);
  indices_sorted : Sorted Z.le (indices h);
  indices_fresh : Forall (fun i => LAST_IMAGE_IDX (CFG h) < i) (indices h);
  images_of_files :
    images h = map (fun f => cv2_imread W f (flag h)) (files h)
}.

(** The pairs a full pass over the handler yields. *)
Definition items (h : ImageHandler) : list (string * option image) :=
  combine (map os_path_basename (files h)) (images h).

(** The images as [save] prepares them before writing: lines 132 to
    136. *)
Definition prepared (W : world) (cfg : config) (imgs : list image) : result (list image) :=
  first <- match imgs with
           | [] => Raise IndexError
           | img :: _ => Ok img
           end ;;
  imgs <- (if ndim first =? 3 then mapM (cv2_cvtColor_BGR2RGB W) imgs else Ok imgs) ;;
  mapM (resize_to_A4 cfg) imgs.

(** The output directory is there once [save] is past line 129. *)
Definition directory_ready (W : world) (h : ImageHandler) : Prop :=
  os_path_exists W (SAVE_PATH (CFG h)) = true
  \/ os_mkdir W (SAVE_PATH (CFG h)) = None.

Definition ensure_directory (W : world) (h : ImageHandler) : list effect :=
  if os_path_exists W (SAVE_PATH (CFG h)) then []
  else [Mkdir (SAVE_PATH (CFG h))].

(** A local time as [time.localtime] returns it. *)
Definition valid_time (t : struct_time) : Prop :=
  1 <= tm_mon t <= 12 /\ 1 <= tm_mday t <= 31
  /\ 0 <= tm_hour t <= 23 /\ 0 <= tm_min t <= 59.

(** ** The page size, as specified and as computed *)

(** The size as the specification words it: [round(3508 * 300 / dpi)]
    by [round(2480 * 300 / dpi)], the quotient rounded to the nearest
    integer (a tie goes to the even one, as Python's [round] does). *)
Definition round_div (n d : Z) : Z :=
  let q := n / d in
  let r := n mod d in
  if 2 * r <? d then q
  else if d <? 2 * r then q + 1
  else if Z.even q then q else q + 1.

Definition spec_target_height (dpi : Z) : Z := round_div (3508 * 300) dpi.
Definition spec_target_width (dpi : Z) : Z := round_div (2480 * 300) dpi.

(** The whole number [n] is the double [x] cut to its whole part, toward
    zero: with [x] of magnitude [m * 2 ^ e], the magnitude [a] of [n] is
    the one whole number with [a <= m * 2 ^ e < a + 1], and [n] has the
    sign of [x].  Nothing is the whole part of an infinity or of a NaN. *)
Definition whole_part_is (x : spec_float) (n : Z) : Prop :=
  match x with
  | S754_zero _ => n = 0
  | S754_finite s m e =>
      let a := if s then - n else n in
      0 <= a
      /\ (if 0 <=? e then a = Zpos m * 2 ^ e
          else a * 2 ^ (- e) <= Zpos m < (a + 1) * 2 ^ (- e))
  | S754_infinity _ => False
  | S754_nan => False
  end.

(** The double 72.5. *)
Definition double_72_5 : spec_float := S754_finite false 5101733952880640 (-46).

(** A configuration that asks for the resolution [d]. *)
Definition dpi_config (d : number) : config :=
  {| DEVICE_PATH := "/media/scanner"; IMAGE_PREFIX := "IMG_";
     IMAGE_EXTENSION := "jpg"; READ_GRAYSCALE := true; LAST_IMAGE_IDX := -1;
     SAVE_PATH := "out"; SAVE_PREFIX := "scan"; SAVE_FORMAT := "pdf";
     SAVE_DPI := d |}.

(** A scanned page of 1000 rows and 700 columns, in grey levels. *)
Definition grey_page (name : string) : image :=
  {| rows := 1000; cols := 700; channels := None; data := Source name |}.

(** The resolutions up to 2400 at which the product [2480 * (300 / dpi)]
    falls just under a whole number. *)
Definition width_one_short : list Z := [93; 186; 372; 744; 1488].

Definition truncated_size (dpi : Z) : Z * Z :=
  ((2480 * 300) / dpi - (if existsb (Z.eqb dpi) width_one_short then 1 else 0),
   (3508 * 300) / dpi).

Definition size_eqb (r : result (Z * Z)) (wh : Z * Z) : bool :=
  match r with
  | Ok (w, h) => (w =? fst wh) && (h =? snd wh)
  | Raise _ => false
  end.

(** ** A scanner with three pages *)

(** The device holds pages 12, 3 and 7, listed in that order; the
    output directory does not exist yet and every write succeeds; the
    library converts a non-empty array that is not a colour image to three
    channels. *)
Definition scanner_world : world :=
  {| glob_glob := fun pattern =>
       if String.eqb pattern "/media/scanner/IMG_*.jpg"
       then ["/media/scanner/IMG_000012.jpg";
             "/media/scanner/IMG_000003.jpg";
             "/media/scanner/IMG_000007.jpg"]
       else [];
     cv2_imread := fun f _ => Some (grey_page f);
     cv2_cvtColor_other := fun img =>
       if nonempty img
       then Ok {| rows := rows img; cols := cols img; channels := Some 3;
                  data := BGR2RGB (data img) |}
       else Raise cv2_error;
     os_path_exists := fun _ => false;
     os_mkdir := fun _ => None;
     cv2_imwrite := fun _ _ => Written;
     pdf_save := fun _ _ => None;
     localtime := {| tm_year := 2024; tm_mon := 3; tm_mday := 9;
                     tm_hour := 14; tm_min := 5 |} |}.

(** Page 3 was processed in an earlier run; [format] is the output
    format. *)
Definition scanner_config (format : string) : config :=
  {| DEVICE_PATH := "/media/scanner"; IMAGE_PREFIX := "IMG_";
     IMAGE_EXTENSION := "jpg"; READ_GRAYSCALE := true; LAST_IMAGE_IDX := 3;
     SAVE_PATH := "out"; SAVE_PREFIX := "scan"; SAVE_FORMAT := format;
     SAVE_DPI := PyInt 300 |}.

(** The handler built on that device. *)
Definition scanner_handler (format : string) : ImageHandler :=
  {| CFG := scanner_config format;
     flag := IMREAD_GRAYSCALE;
     cnt := 0%nat;
     files := ["/media/scanner/IMG_000007.jpg"; "/media/scanner/IMG_000012.jpg"];
     indices := [7; 12];
     images := [Some (grey_page "/media/scanner/IMG_000007.jpg");
                Some (grey_page "/media/scanner/IMG_000012.jpg")] |}.

(** A handler built on a device without pages. *)
Definition idle_handler : ImageHandler :=
  {| CFG := scanner_config "pdf"; flag := IMREAD_GRAYSCALE; cnt := 0%nat;
     files := []; indices := []; images := [] |}.

(** A page once [save] has prepared it at 300 dpi. *)
Definition a4_page (name : string) : image :=
  {| rows := 3508; cols := 2480; channels := None;
     data := Resized (Source name) 2480 3508 |}.

(** ** Decimal strings *)

(** The number that a string of decimal digits denotes. *)
Fixpoint decimal_value_from (acc : Z) (s : string) : Z :=
  match s with
  | EmptyString => acc
  | String c r => decimal_value_from (10 * acc + PyInt.digit c) r
  end.

Definition decimal_value (s : string) : Z := decimal_value_from 0 s.

Fixpoint all_digits (s : string) : bool :=
  match s with
  | EmptyString => true
  | String c r => PyInt.is_digit c && all_digits r
  end.

(** The configuration [cfg] with the watermark moved to [m]. *)
Definition with_watermark (cfg : config) (m : Z) : config :=
  {| DEVICE_PATH := DEVICE_PATH cfg; IMAGE_PREFIX := IMAGE_PREFIX cfg;
     IMAGE_EXTENSION := IMAGE_EXTENSION cfg; READ_GRAYSCALE := READ_GRAYSCALE cfg;
     LAST_IMAGE_IDX := m;
     SAVE_PATH := SAVE_PATH cfg; SAVE_PREFIX := SAVE_PREFIX cfg;
     SAVE_FORMAT := SAVE_FORMAT cfg; SAVE_DPI := SAVE_DPI cfg |}.

(** The same scanner when page 0 is on it too. *)
Definition scanner_world_with_page_0 : world :=
  {| glob_glob := fun pattern =>
       if String.eqb pattern "/media/scanner/IMG_*.jpg"
       then ["/media/scanner/IMG_000012.jpg";
             "/media/scanner/IMG_000000.jpg";
             "/media/scanner/IMG_000007.jpg"]
       else [];
     cv2_imread := cv2_imread scanner_world;
     cv2_cvtColor_other := cv2_cvtColor_other scanner_world;
     os_path_exists := os_path_exists scanner_world;
     os_mkdir := os_mkdir scanner_world;
     cv2_imwrite := cv2_imwrite scanner_world;
     pdf_save := pdf_save scanner_world;
     localtime := localtime scanner_world |}.

(** The same scanner when page 3 is on it twice, under two names. *)
Definition scanner_world_with_copy : world :=
  {| glob_glob := fun pattern =>
       if String.eqb pattern "/media/scanner/IMG_*.jpg"
       then ["/media/scanner/IMG_000012.jpg";
             "/media/scanner/IMG_000003.jpg";
             "/media/scanner/IMG_3.jpg";
             "/media/scanner/IMG_000007.jpg"]
       else [];
     cv2_imread := cv2_imread scanner_world;
     cv2_cvtColor_other := cv2_cvtColor_other scanner_world;
     os_path_exists := os_path_exists scanner_world;
     os_mkdir := os_mkdir scanner_world;
     cv2_imwrite := cv2_imwrite scanner_world;
     pdf_save := pdf_save scanner_world;
     localtime := localtime scanner_world |}.

(** The handler built on the scanner with the watermark at [m], holding
    the files [fs] with the indices [ix]. *)
Definition scanner_handler_at (m : Z) (fs : list string) (ix : list Z) : ImageHandler :=
  {| CFG := with_watermark (scanner_config "pdf") m;
     flag := IMREAD_GRAYSCALE;
     cnt := 0%nat;
     files := fs;
     indices := ix;
     images := map (fun f => Some (grey_page f)) fs |}.

(** ** Prepared images *)

(** What [cv2.resize] returns for [img] and the size [(w, h)]. *)
Definition resized (w h : Z) (img : image) : image :=
  {| rows := h; cols := w;
     channels := match channels img with
                 | Some 1 => None
                 | c => c
                 end;
     data := Resized (data img) w h |}.

(** What [cv2.cvtColor(img, cv2.COLOR_BGR2RGB)] returns for [img]. *)
Definition swapped (img : image) : image :=
  {| rows := rows img; cols := cols img; channels := Some 3;
     data := BGR2RGB (data img) |}.

(** An array [cv2.cvtColor] takes: not empty, of 3 or 4 channels. *)
Definition is_colour (img : image) : bool :=
  match channels img with
  | Some c => nonempty img && ((c =? 3) || (c =? 4))
  | None => false
  end.

(** A size [cv2.resize] takes. *)
Definition valid_size (w h : Z) : Prop :=
  0 < w <= INT_MAX /\ 0 < h <= INT_MAX.

(** Whether [cv2.imwrite] writes the file. *)
Definition is_written (W : world) (x : string * image) : bool :=
  match cv2_imwrite W (fst x) (snd x) with
  | Written => true
  | _ => false
  end.

(** A scanned page of 1000 rows and 700 columns, in colour. *)
Definition colour_page (name : string) : image :=
  {| rows := 1000; cols := 700; channels := Some 3; data := Source name |}.

(** A page scanned sideways: 700 rows and 1000 columns. *)
Definition sideways_page (name : string) : image :=
  {| rows := 700; cols := 1000; channels := None; data := Source name |}.

(** The scanner when the output directory cannot be created. *)
Definition read_only_world : world :=
  {| glob_glob := glob_glob scanner_world;
     cv2_imread := cv2_imread scanner_world;
     cv2_cvtColor_other := cv2_cvtColor_other scanner_world;
     os_path_exists := os_path_exists scanner_world;
     os_mkdir := fun _ => Some OSError;
     cv2_imwrite := cv2_imwrite scanner_world;
     pdf_save := pdf_save scanner_world;
     localtime := localtime scanner_world |}.

(** The scanner when the write of page 12 returns [False]. *)
Definition full_disk_world : world :=
  {| glob_glob := glob_glob scanner_world;
     cv2_imread := cv2_imread scanner_world;
     cv2_cvtColor_other := cv2_cvtColor_other scanner_world;
     os_path_exists := os_path_exists scanner_world;
     os_mkdir := os_mkdir scanner_world;
     cv2_imwrite := fun p _ =>
       if String.eqb p "out/IMG_000012.jpg" then NotWritten else Written;
     pdf_save := pdf_save scanner_world;
     localtime := localtime scanner_world |}.

(** The scanner one hundred years and some seconds later. *)
Definition scanner_world_in_2124 : world :=
  {| glob_glob := glob_glob scanner_world;
     cv2_imread := cv2_imread scanner_world;
     cv2_cvtColor_other := cv2_cvtColor_other scanner_world;
     os_path_exists := os_path_exists scanner_world;
     os_mkdir := os_mkdir scanner_world;
     cv2_imwrite := cv2_imwrite scanner_world;
     pdf_save := pdf_save scanner_world;
     localtime := {| tm_year := 2124; tm_mon := 3; tm_mday := 9;
                     tm_hour := 14; tm_min := 5 |} |}.

(** The handler of the scanner when the configuration asks for 0 dpi. *)
Definition zero_dpi_handler : ImageHandler :=
  {| CFG := {| DEVICE_PATH := "/media/scanner"; IMAGE_PREFIX := "IMG_";
               IMAGE_EXTENSION := "jpg"; READ_GRAYSCALE := true;
               LAST_IMAGE_IDX := 3; SAVE_PATH := "out"; SAVE_PREFIX := "scan";
               SAVE_FORMAT := "pdf"; SAVE_DPI := PyFloat (S754_zero true) |};
     flag := IMREAD_GRAYSCALE;
     cnt := 0%nat;
     files := files (scanner_handler "pdf");
     indices := indices (scanner_handler "pdf");
     images := images (scanner_handler "pdf") |}.

(** ** Results on lists *)

Section MapM.

Context {A B : Type}.
Variable f : A -> result B.

Lemma mapM_length (xs : list A) (ys : list B) :
  mapM f xs = Ok ys -> List.length ys = List.length xs.
Proof.
  revert ys. induction xs as [|x r IH]; simpl; intros ys H.
  - inversion H. reflexivity.
  - destruct (f x) as [y|e]; simpl in H; [|discriminate].
    destruct (mapM f r) as [ys'|e]; simpl in H; [|discriminate].
    inversion H. simpl. f_equal. apply IH. reflexivity.
Qed.

Lemma mapM_cons_inv (x : A) (r : list A) (ys : list B) :
  mapM f (x :: r) = Ok ys ->
  exists y ys', ys = y :: ys' /\ f x = Ok y /\ mapM f r = Ok ys'.
Proof.
  simpl. destruct (f x) as [y|e]; simpl; [|discriminate].
  destruct (mapM f r) as [ys'|e]; simpl; [|discriminate].
  intros H. inversion H. exists y, ys'. repeat split.
Qed.

Lemma mapM_nth_error (xs : list A) (ys : list B) (i : nat) (x : A) :
  mapM f xs = Ok ys -> nth_error xs i = Some x ->
  exists y, f x = Ok y /\ nth_error ys i = Some y.
Proof.
  revert ys i. induction xs as [|x0 r IH]; intros ys i H Hi.
  - destruct i; discriminate.
  - apply mapM_cons_inv in H. destruct H as (y & ys' & -> & Hy & Hr).
    destruct i as [|i]; simpl in *.
    + inversion Hi. subst. exists y. split; [assumption | reflexivity].
    + apply (IH ys' i Hr Hi).
Qed.

Lemma mapM_map (g : A -> B) (xs : list A) :
  (forall x, In x xs -> f x = Ok (g x)) -> mapM f xs = Ok (map g xs).
Proof.
  induction xs as [|x r IH]; simpl; intros H; [reflexivity|].
  rewrite (H x (or_introl eq_refl)). simpl.
  rewrite IH; [reflexivity|]. intros y Hy. apply H. right. assumption.
Qed.

Lemma mapM_total (xs : list A) :
  (forall x, In x xs -> exists y, f x = Ok y) -> exists ys, mapM f xs = Ok ys.
Proof.
  induction xs as [|x r IH]; simpl; intros H.
  - exists []. reflexivity.
  - destruct (H x (or_introl eq_refl)) as [y Hy].
    destruct IH as [ys Hys]; [intros z Hz; apply H; right; assumption|].
    exists (y :: ys). rewrite Hy, Hys. reflexivity.
Qed.

End MapM.

(** ** [numpy] indexing *)

Lemma map_nth_seq {A : Type} (a : list A) (d : A) :
  map (fun i => nth i a d) (seq 0 (List.length a)) = a.
Proof.
  induction a as [|x r IH]; simpl; [reflexivity|].
  f_equal. rewrite <- seq_shift, map_map. exact IH.
Qed.

Lemma nth_error_combine {A B : Type} (a : list A) (b : list B) (i : nat) (x : A) (y : B) :
  nth_error a i = Some x -> nth_error b i = Some y ->
  nth_error (combine a b) i = Some (x, y).
Proof.
  revert b i. induction a as [|x0 r IH]; intros b i Ha Hb.
  - destruct i; discriminate.
  - destruct b as [|y0 s]; [destruct i; discriminate|].
    destruct i as [|i]; simpl in *.
    + inversion Ha. inversion Hb. reflexivity.
    + apply IH; assumption.
Qed.

Lemma np_take_cons_inv {A : Type} (a : list A) (i : nat) (r : list nat) (b : list A) :
  np_take a (i :: r) = Ok b ->
  exists x b', b = x :: b' /\ nth_error a i = Some x /\ np_take a r = Ok b'.
Proof.
  intros H. unfold np_take in H. apply mapM_cons_inv in H.
  destruct H as (x & b' & -> & Hx & Hr).
  exists x, b'. repeat split; [|exact Hr].
  destruct (nth_error a i); [inversion Hx; reflexivity | discriminate].
Qed.

Lemma np_take_map {A : Type} (a : list A) (idx : list nat) (b : list A) (d : A) :
  np_take a idx = Ok b -> b = map (fun i => nth i a d) idx.
Proof.
  revert b. induction idx as [|i r IH]; intros b H.
  - inversion H. reflexivity.
  - apply np_take_cons_inv in H. destruct H as (x & b' & -> & Hx & Hr).
    simpl. rewrite (nth_error_nth _ _ d Hx). f_equal. apply IH. exact Hr.
Qed.

Lemma np_take_in_range {A : Type} (a : list A) (idx : list nat) :
  Forall (fun i => (i < List.length a)%nat) idx -> exists b, np_take a idx = Ok b.
Proof.
  intros H. apply mapM_total. intros i Hi.
  rewrite Forall_forall in H. specialize (H i Hi).
  destruct (nth_error a i) as [x|] eqn:E.
  - exists x. reflexivity.
  - apply nth_error_None in E. lia.
Qed.

Lemma np_take_length {A : Type} (a : list A) (idx : list nat) (b : list A) :
  np_take a idx = Ok b -> List.length b = List.length idx.
Proof. apply mapM_length. Qed.

Lemma np_take_combine {A B : Type} (a : list A) (b : list B) (idx : list nat)
      (a' : list A) (b' : list B) :
  np_take a idx = Ok a' -> np_take b idx = Ok b' ->
  np_take (combine a b) idx = Ok (combine a' b').
Proof.
  revert a' b'. induction idx as [|i r IH]; intros a' b' Ha Hb.
  - inversion Ha. inversion Hb. reflexivity.
  - apply np_take_cons_inv in Ha. destruct Ha as (x & a'' & -> & Hx & Ha).
    apply np_take_cons_inv in Hb. destruct Hb as (y & b'' & -> & Hy & Hb).
    unfold np_take in *. simpl.
    rewrite (nth_error_combine _ _ _ _ _ Hx Hy). simpl.
    rewrite (IH _ _ Ha Hb). reflexivity.
Qed.

(** Indexing by a permutation of the positions permutes the array. *)
Lemma np_take_permutation {A : Type} (a : list A) (idx : list nat) (b : list A) :
  Permutation idx (seq 0 (List.length a)) -> np_take a idx = Ok b ->
  Permutation b a.
Proof.
  intros Hp Hb. destruct a as [|d a'].
  - simpl in Hp. apply Permutation_sym, Permutation_nil in Hp. subst idx.
    inversion Hb. constructor.
  - rewrite (np_take_map _ _ _ d Hb).
    eapply Permutation_trans; [apply Permutation_map; exact Hp|].
    rewrite map_nth_seq. apply Permutation_refl.
Qed.

Lemma np_take_permutation_total {A : Type} (a : list A) (idx : list nat) :
  Permutation idx (seq 0 (List.length a)) -> exists b, np_take a idx = Ok b.
Proof.
  intros Hp. apply np_take_in_range. rewrite Forall_forall. intros i Hi.
  apply (Permutation_in _ Hp) in Hi. apply in_seq in Hi. lia.
Qed.

Lemma np_take_where_from {A : Type} (pre a : list A) (mask : list bool) :
  (List.length mask <= List.length a)%nat ->
  np_take (pre ++ a)%list (np_where_from (List.length pre) mask) = Ok (select mask a).
Proof.
  revert pre a. induction mask as [|m ms IH]; intros pre a Hl.
  - reflexivity.
  - destruct a as [|x r]; simpl in Hl; [lia|].
    assert (Hnext : np_take (pre ++ x :: r)%list (np_where_from (S (List.length pre)) ms)
                    = Ok (select ms r)).
    { replace (pre ++ x :: r)%list with ((pre ++ [x]) ++ r)%list
        by (rewrite <- app_assoc; reflexivity).
      replace (S (List.length pre)) with (List.length (pre ++ [x])%list)
        by (rewrite length_app; simpl; lia).
      apply IH. lia. }
    simpl. destruct m; [|exact Hnext].
    unfold np_take in *. simpl.
    rewrite nth_error_app2 by lia. rewrite Nat.sub_diag. simpl.
    rewrite Hnext. reflexivity.
Qed.

Lemma np_take_where {A : Type} (a : list A) (mask : list bool) :
  (List.length mask <= List.length a)%nat ->
  np_take a (np_where mask) = Ok (select mask a).
Proof. intros H. apply (np_take_where_from [] a mask H). Qed.

Lemma select_map_filter {A : Type} (p : A -> bool) (a : list A) :
  select (map p a) a = filter p a.
Proof.
  induction a as [|x r IH]; simpl; [reflexivity|].
  destruct (p x); rewrite IH; reflexivity.
Qed.

Lemma select_combine {A B : Type} (p : B -> bool) (a : list A) (k : list B) :
  List.length a = List.length k ->
  combine (select (map p k) a) (select (map p k) k)
  = filter (fun x => p (snd x)) (combine a k).
Proof.
  revert k. induction a as [|x r IH]; intros k Hl; destruct k as [|y s];
    simpl in *; try reflexivity; try discriminate.
  destruct (p y); simpl; rewrite IH by lia; reflexivity.
Qed.

Lemma select_length {A B : Type} (mask : list bool) (a : list A) (b : list B) :
  List.length a = List.length b ->
  List.length (select mask a) = List.length (select mask b).
Proof.
  revert a b. induction mask as [|m ms IH]; intros a b Hl; [reflexivity|].
  destruct a as [|x r], b as [|y s]; simpl in *; try reflexivity; try discriminate.
  destruct m; simpl; rewrite (IH r s) by lia; reflexivity.
Qed.

Lemma select_mapM {A B : Type} (f : A -> result B) (mask : list bool) (a : list A) (b : list B) :
  mapM f a = Ok b -> mapM f (select mask a) = Ok (select mask b).
Proof.
  revert a b. induction mask as [|m ms IH]; intros a b H.
  - reflexivity.
  - destruct a as [|x r].
    + inversion H. reflexivity.
    + apply mapM_cons_inv in H. destruct H as (y & b' & -> & Hy & Hr).
      simpl. destruct m; simpl; rewrite ?Hy; simpl; rewrite (IH _ _ Hr); reflexivity.
Qed.

(** ** The merge-sort [argsort] is an [ArgSort] *)

Lemma map_snd_combine {A B : Type} (a : list A) (b : list B) :
  List.length a = List.length b -> map snd (combine a b) = b.
Proof.
  revert b. induction a as [|x r IH]; intros [|y s] H; simpl in *;
    try reflexivity; try discriminate.
  f_equal. apply IH. lia.
Qed.

Lemma map_fst_combine {A B : Type} (a : list A) (b : list B) :
  List.length a = List.length b -> map fst (combine a b) = a.
Proof.
  revert b. induction a as [|x r IH]; intros [|y s] H; simpl in *;
    try reflexivity; try discriminate.
  f_equal. apply IH. lia.
Qed.

Lemma in_combine_seq {A : Type} (pre a : list A) (v : A) (i : nat) :
  In (v, i) (combine a (seq (List.length pre) (List.length a))) ->
  nth_error (pre ++ a)%list i = Some v.
Proof.
  revert pre. induction a as [|x r IH]; intros pre H; simpl in H; [contradiction|].
  destruct H as [H|H].
  - inversion H. subst. rewrite nth_error_app2 by lia.
    rewrite Nat.sub_diag. reflexivity.
  - replace (pre ++ x :: r)%list with ((pre ++ [x]) ++ r)%list
      by (rewrite <- app_assoc; reflexivity).
    apply IH. rewrite length_app. simpl.
    replace (List.length pre + 1)%nat with (S (List.length pre)) by lia.
    exact H.
Qed.

Lemma Sorted_map_fst (l : list (Z * nat)) :
  Sorted (fun x y => is_true (fst x <=? fst y)) l -> Sorted Z.le (map fst l).
Proof.
  induction 1 as [|x l Hs IH Hd]; simpl; constructor; [exact IH|].
  destruct Hd as [|y l' Hxy]; simpl; constructor.
  apply Z.leb_le. exact Hxy.
Qed.

Lemma merge_argsort_perm (a : list Z) :
  Permutation (merge_argsort a) (seq 0 (List.length a)).
Proof.
  unfold merge_argsort.
  rewrite <- (map_snd_combine a (seq 0 (List.length a))) at 2
    by (rewrite length_seq; reflexivity).
  apply Permutation_map, Permutation_sym, KeySort.Permuted_sort.
Qed.

Lemma merge_argsort_sorted (a : list Z) :
  Sorted Z.le (map (fun i => nth i a 0) (merge_argsort a)).
Proof.
  unfold merge_argsort. rewrite map_map.
  rewrite (map_ext_in _ fst).
  - apply Sorted_map_fst, KeySort.Sorted_sort.
  - intros [v i] Hin. simpl.
    apply (Permutation_in _ (Permutation_sym (KeySort.Permuted_sort _))) in Hin.
    apply (in_combine_seq [] a v i) in Hin. simpl in Hin.
    apply nth_error_nth. exact Hin.
Qed.

Definition merge_ArgSort : ArgSort :=
  {| np_argsort := merge_argsort;
     np_argsort_perm := merge_argsort_perm;
     np_argsort_sorted := merge_argsort_sorted |}.

Lemma reverse_argsort_perm (a : list Z) :
  Permutation (reverse_argsort a) (seq 0 (List.length a)).
Proof.
  unfold reverse_argsort.
  rewrite <- (map_snd_combine a (seq 0 (List.length a))) at 2
    by (rewrite length_seq; reflexivity).
  apply Permutation_map.
  eapply Permutation_trans;
    [apply Permutation_sym, KeySort.Permuted_sort
    | apply Permutation_sym, Permutation_rev].
Qed.

Lemma reverse_argsort_sorted (a : list Z) :
  Sorted Z.le (map (fun i => nth i a 0) (reverse_argsort a)).
Proof.
  unfold reverse_argsort. rewrite map_map.
  rewrite (map_ext_in _ fst).
  - apply Sorted_map_fst, KeySort.Sorted_sort.
  - intros [v i] Hin. simpl.
    apply (Permutation_in _ (Permutation_sym (KeySort.Permuted_sort _))) in Hin.
    apply in_rev in Hin.
    apply (in_combine_seq [] a v i) in Hin. simpl in Hin.
    apply nth_error_nth. exact Hin.
Qed.

Definition reverse_ArgSort : ArgSort :=
  {| np_argsort := reverse_argsort;
     np_argsort_perm := reverse_argsort_perm;
     np_argsort_sorted := reverse_argsort_sorted |}.

(** ** Paths and file names *)

Lemma str_app_assoc (a b c : string) : ((a ++ b) ++ c)%string = (a ++ b ++ c)%string.
Proof. induction a as [|x r IH]; simpl; [reflexivity | rewrite IH; reflexivity]. Qed.

Lemma has_slash_app (a b : string) :
  Str.has_slash (a ++ b) = Str.has_slash a || Str.has_slash b.
Proof.
  induction a as [|c r IH]; simpl; [reflexivity|].
  rewrite IH. apply orb_assoc.
Qed.

Lemma after_last_slash_none (s : string) :
  Str.has_slash s = false -> Str.after_last_slash s = None.
Proof.
  induction s as [|c r IH]; simpl; [reflexivity|].
  intros H. apply orb_false_iff in H. destruct H as [Hc Hr].
  rewrite (IH Hr), Hc. reflexivity.
Qed.

Lemma after_last_slash_some (s t : string) :
  Str.after_last_slash s = Some t -> Str.has_slash t = false.
Proof.
  revert t. induction s as [|c r IH]; simpl; intros t H; [discriminate|].
  destruct (Str.after_last_slash r) as [u|] eqn:E.
  - inversion H. subst. apply IH. reflexivity.
  - destruct (Ascii.eqb c "/"); [|discriminate].
    inversion H. subst.
    clear -E. induction t as [|d u IHu]; simpl in *; [reflexivity|].
    destruct (Str.after_last_slash u); [discriminate|].
    destruct (Ascii.eqb d "/"); [discriminate|]. simpl. apply IHu. reflexivity.
Qed.

Lemma os_path_basename_no_slash (s : string) :
  Str.has_slash s = false -> os_path_basename s = s.
Proof.
  intros H. unfold os_path_basename. rewrite (after_last_slash_none s H). reflexivity.
Qed.

Lemma has_slash_basename (p : string) : Str.has_slash (os_path_basename p) = false.
Proof.
  unfold os_path_basename. destruct (Str.after_last_slash p) as [t|] eqn:E.
  - apply (after_last_slash_some p t E).
  - clear -E. induction p as [|c r IH]; simpl in *; [reflexivity|].
    destruct (Str.after_last_slash r); [discriminate|].
    destruct (Ascii.eqb c "/"); [discriminate|]. simpl. apply IH. reflexivity.
Qed.

Lemma after_last_slash_app (a b : string) :
  Str.has_slash b = false ->
  Str.after_last_slash (a ++ "/" ++ b) = Some b.
Proof.
  intros Hb. induction a as [|c r IH]; simpl.
  - rewrite (after_last_slash_none b Hb). reflexivity.
  - simpl in IH. rewrite IH. reflexivity.
Qed.

Lemma ends_with_slash_app (a b : string) :
  Str.ends_with_slash a = true -> Str.has_slash b = false ->
  Str.after_last_slash (a ++ b) = Some b.
Proof.
  intros Ha Hb. induction a as [|c r IH]; [discriminate|].
  destruct r as [|c' r'].
  - simpl in Ha. simpl. rewrite (after_last_slash_none b Hb), Ha. reflexivity.
  - change (Str.ends_with_slash (String c (String c' r')))
      with (Str.ends_with_slash (String c' r')) in Ha.
    change ((String c (String c' r')) ++ b) with (String c ((String c' r') ++ b)).
    change (Str.after_last_slash (String c (String c' r' ++ b)))
      with (match Str.after_last_slash (String c' r' ++ b) with
            | Some t => Some t
            | None => if Ascii.eqb c "/" then Some (String c' r' ++ b) else None
            end).
    rewrite (IH Ha). reflexivity.
Qed.

(** A file saved under the base name of a source keeps that base name. *)
Lemma basename_join_basename (dir p : string) :
  os_path_basename (os_path_join dir (os_path_basename p)) = os_path_basename p.
Proof.
  pose proof (has_slash_basename p) as Hb.
  set (b := os_path_basename p) in *.
  unfold os_path_join.
  assert (Hs : Str.startswith b "/" = false).
  { unfold Str.startswith. destruct b as [|c r]; [reflexivity|].
    simpl in Hb. apply orb_false_iff in Hb. destruct Hb as [Hc _].
    change (String.prefix "/" (String c r))
      with (if ascii_dec "/" c then String.prefix "" r else false).
    destruct (ascii_dec "/" c) as [<-|Hn]; [|reflexivity].
    rewrite Ascii.eqb_refl in Hc. discriminate. }
  rewrite Hs.
  destruct (String.eqb dir "") eqn:Ed.
  - apply String.eqb_eq in Ed. subst dir. simpl.
    apply os_path_basename_no_slash. exact Hb.
  - rewrite orb_false_l. destruct (Str.ends_with_slash dir) eqn:Es;
      unfold os_path_basename.
    + rewrite (ends_with_slash_app dir b Es Hb). reflexivity.
    + rewrite (after_last_slash_app dir b Hb). reflexivity.
Qed.

(** ** The index parser *)

Lemma startswith_app (p x : string) : Str.startswith (p ++ x) p = true.
Proof.
  unfold Str.startswith. induction p as [|c r IH].
  - destruct x; reflexivity.
  - change (String.prefix (String c r) (String c r ++ x))
      with (if ascii_dec c c then String.prefix r (r ++ x) else false).
    destruct (ascii_dec c c) as [_|Hn]; [exact IH | contradiction].
Qed.

Lemma drop_app (p x : string) : Str.drop (String.length p) (p ++ x) = x.
Proof. induction p as [|c r IH]; simpl; [reflexivity | exact IH]. Qed.

Lemma has_slash_replicate_zero (n : nat) : Str.has_slash (Str.replicate n "0") = false.
Proof. induction n as [|n IH]; simpl; [reflexivity | exact IH]. Qed.

Lemma before_dot_zeros (n : nat) (rest : string) :
  Str.before_dot (Str.replicate n "0" ++ "." ++ rest) = Str.replicate n "0".
Proof.
  change ("." ++ rest) with (String "." rest).
  induction n as [|n IH]; simpl; [reflexivity | rewrite IH; reflexivity].
Qed.

Lemma lstrip_zeros_replicate (n : nat) : Str.lstrip_zeros (Str.replicate n "0") = "".
Proof. induction n as [|n IH]; simpl; [reflexivity | exact IH]. Qed.

(** C1 (as the code behaves).  For a prefix and an extension without
    a slash, the name made of the prefix, any number of zeros, a dot and
    the extension is not parsed to 0: stripping the zeros leaves the empty
    string and [int] raises [ValueError]. *)
Theorem image_name_to_index_all_zeros (cfg : config) (n : nat) (ext : string) :
  Str.has_slash (IMAGE_PREFIX cfg) = false ->
  Str.has_slash ext = false ->
  image_name_to_index cfg (IMAGE_PREFIX cfg ++ Str.replicate n "0" ++ "." ++ ext)
  = Raise ValueError.
Proof.
  intros Hp He. unfold image_name_to_index.
  rewrite os_path_basename_no_slash.
  - rewrite startswith_app, drop_app, before_dot_zeros, lstrip_zeros_replicate.
    reflexivity.
  - rewrite !has_slash_app, Hp, has_slash_replicate_zero, He. reflexivity.
Qed.

(** ** Construction *)

Lemma np_take_mapM {A B : Type} (f : A -> result B) (a : list A) (b : list B)
      (idx : list nat) (a' : list A) (b' : list B) :
  mapM f a = Ok b -> np_take a idx = Ok a' -> np_take b idx = Ok b' ->
  mapM f a' = Ok b'.
Proof.
  intros Hf. revert a' b'. induction idx as [|i r IH]; intros a' b' Ha Hb.
  - inversion Ha. inversion Hb. reflexivity.
  - apply np_take_cons_inv in Ha. destruct Ha as (x & a'' & -> & Hx & Ha).
    apply np_take_cons_inv in Hb. destruct Hb as (y & b'' & -> & Hy & Hb).
    destruct (mapM_nth_error f a b i x Hf Hx) as (y' & Hfx & Hy').
    rewrite Hy in Hy'. inversion Hy'. subst y'.
    simpl. rewrite Hfx. simpl. rewrite (IH _ _ Ha Hb). reflexivity.
Qed.

Lemma Sorted_le_filter (p : Z -> bool) (l : list Z) :
  Sorted Z.le l -> Sorted Z.le (filter p l).
Proof.
  intros H. apply StronglySorted_Sorted.
  apply Sorted_StronglySorted in H; [|intros x y z; apply Z.le_trans].
  induction H as [|x l Hs IH Hall]; simpl; [constructor|].
  destruct (p x); [|exact IH].
  constructor; [exact IH|].
  rewrite Forall_forall in *. intros y Hy. apply Hall.
  apply filter_In in Hy. tauto.
Qed.

Section Construction.

Context {AS : ArgSort}.
Variable W : world.

Lemma sort_names_by_indices_spec (h h' : ImageHandler) :
  sort_names_by_indices h = Ok h' ->
  exists ix,
    mapM (image_name_to_index (CFG h)) (files h) = Ok ix
    /\ Permutation (combine (files h') (indices h')) (combine (files h) ix)
    /\ Sorted Z.le (indices h')
    /\ mapM (image_name_to_index (CFG h)) (files h') = Ok (indices h')
    /\ CFG h' = CFG h /\ flag h' = flag h /\ cnt h' = cnt h
    /\ images h' = images h.
Proof.
  unfold sort_names_by_indices.
  destruct (mapM (image_name_to_index (CFG h)) (files h)) as [ix|e] eqn:Hix;
    simpl; [|discriminate].
  destruct (np_take ix (np_argsort ix)) as [ix'|e] eqn:Hix'; simpl; [|discriminate].
  destruct (np_take (files h) (np_argsort ix)) as [fs'|e] eqn:Hfs'; simpl;
    [|discriminate].
  intros H. inversion H. subst h'. clear H. simpl.
  exists ix. split; [reflexivity|].
  pose proof (mapM_length _ _ _ Hix) as Hlen.
  repeat split.
  - apply (np_take_permutation _ (np_argsort ix)).
    + rewrite length_combine, Hlen, Nat.min_id. rewrite <- Hlen.
      apply np_argsort_perm.
    + apply np_take_combine; assumption.
  - rewrite (np_take_map _ _ _ 0 Hix'). apply np_argsort_sorted.
  - apply (np_take_mapM _ _ _ _ _ _ Hix Hfs' Hix').
Qed.

Lemma sort_names_by_indices_total (h : ImageHandler) (ix : list Z) :
  mapM (image_name_to_index (CFG h)) (files h) = Ok ix ->
  exists h', sort_names_by_indices h = Ok h'.
Proof.
  intros Hix. unfold sort_names_by_indices. rewrite Hix. simpl.
  pose proof (mapM_length _ _ _ Hix) as Hlen.
  destruct (np_take_permutation_total ix (np_argsort ix) (np_argsort_perm ix))
    as [ix' Hix'].
  destruct (np_take_permutation_total (files h) (np_argsort ix)) as [fs' Hfs'].
  { rewrite <- Hlen. apply np_argsort_perm. }
  rewrite Hix', Hfs'. simpl. eexists. reflexivity.
Qed.

Lemma discard_old_spec (h : ImageHandler) :
  List.length (files h) = List.length (indices h) ->
  discard_old h =
  Ok (set_indices
        (set_files h (select (map (newer (CFG h)) (indices h)) (files h)))
        (filter (newer (CFG h)) (indices h))).
Proof.
  intros Hlen. unfold discard_old.
  change (fun i => LAST_IMAGE_IDX (CFG h) <? i) with (newer (CFG h)).
  rewrite !np_take_where by (rewrite length_map; lia).
  simpl. rewrite select_map_filter. reflexivity.
Qed.

(** What [__init__] builds: the scanned names are parsed, the pairs are
    put in index order, and the pairs above the watermark are kept. *)
Lemma init_spec (cfg : config) (h : ImageHandler) :
  init W cfg = Ok h ->
  exists ix fs' ix',
    mapM (image_name_to_index cfg) (scanned W cfg) = Ok ix
    /\ Permutation (combine fs' ix') (combine (scanned W cfg) ix)
    /\ Sorted Z.le ix'
    /\ mapM (image_name_to_index cfg) fs' = Ok ix'
    /\ combine (files h) (indices h)
       = filter (fun p => newer cfg (snd p)) (combine fs' ix')
    /\ files h = select (map (newer cfg) ix') fs'
    /\ indices h = filter (newer cfg) ix'
    /\ images h = map (fun f => cv2_imread W f (flag h)) (files h)
    /\ CFG h = cfg /\ cnt h = 0%nat.
Proof.
  unfold init.
  match goal with
  | |- context [sort_names_by_indices ?x] => set (h0 := x)
  end.
  destruct (sort_names_by_indices h0) as [h1|e] eqn:H1; simpl; [|discriminate].
  apply sort_names_by_indices_spec in H1.
  destruct H1 as (ix & Hix & Hperm & Hsorted & Hparsed & Hcfg & Hflag & Hcnt & Himg).
  pose proof (mapM_length _ _ _ Hparsed) as Hlen.
  rewrite discard_old_spec by lia. simpl.
  intros H. inversion H. subst h. clear H. simpl.
  exists ix, (files h1), (indices h1).
  rewrite Hcfg, Hcnt. simpl.
  repeat split; try assumption.
  rewrite <- (select_map_filter (newer cfg) (indices h1)).
  apply select_combine. lia.
Qed.

Lemma init_total (cfg : config) :
  (forall f, In f (scanned W cfg) -> exists z, image_name_to_index cfg f = Ok z) ->
  exists h, init W cfg = Ok h.
Proof.
  intros Hall. destruct (mapM_total _ _ Hall) as [ix Hix].
  unfold init.
  match goal with
  | |- context [sort_names_by_indices ?x] => set (h0 := x)
  end.
  destruct (sort_names_by_indices_total h0 ix Hix) as [h1 H1].
  rewrite H1. simpl.
  apply sort_names_by_indices_spec in H1.
  destruct H1 as (ix0 & _ & _ & _ & Hparsed & _).
  pose proof (mapM_length _ _ _ Hparsed) as Hlen.
  rewrite discard_old_spec by lia. simpl. eexists. reflexivity.
Qed.

Lemma init_consistent (cfg : config) (h : ImageHandler) :
  init W cfg = Ok h -> consistent W h.
Proof.
  intros H. apply init_spec in H.
  destruct H as (ix & fs' & ix' & _ & _ & Hsorted & Hparsed & _ & Hf & Hi & Him & Hcfg & _).
  constructor.
  - rewrite Hcfg, Hf, Hi, <- select_map_filter. apply select_mapM. exact Hparsed.
  - rewrite Hi. apply Sorted_le_filter. exact Hsorted.
  - rewrite Hi, Hcfg. rewrite Forall_forall. intros i Hin.
    apply filter_In in Hin. destruct Hin as [_ Hn]. apply Z.ltb_lt. exact Hn.
  - exact Him.
Qed.

Lemma init_ascending (cfg : config) (h : ImageHandler) :
  init W cfg = Ok h ->
  StronglySorted Z.le (indices h)
  /\ mapM (image_name_to_index cfg) (files h) = Ok (indices h).
Proof.
  intros Hinit.
  pose proof (init_consistent cfg h Hinit) as Hc.
  apply init_spec in Hinit.
  destruct Hinit as (_ & _ & _ & _ & _ & _ & _ & _ & _ & _ & _ & Hcfg & _).
  split.
  - apply Sorted_StronglySorted; [intros x y z; apply Z.le_trans|].
    apply (indices_sorted W h Hc).
  - rewrite <- Hcfg. apply (indices_of_files W h Hc).
Qed.

Lemma consistent_length (h : ImageHandler) :
  consistent W h ->
  List.length (indices h) = List.length (files h)
  /\ List.length (images h) = List.length (files h).
Proof.
  intros [Hp _ _ Hi]. split.
  - apply (mapM_length _ _ _ Hp).
  - rewrite Hi. apply length_map.
Qed.

End Construction.

Lemma Permutation_filter {A : Type} (p : A -> bool) (l l' : list A) :
  Permutation l l' -> Permutation (filter p l) (filter p l').
Proof.
  induction 1 as [|x l l' _ IH|x y l|l l' l'' _ IH1 _ IH2]; simpl.
  - constructor.
  - destruct (p x); [constructor|]; exact IH.
  - destruct (p x), (p y); try apply Permutation_refl. apply perm_swap.
  - apply (Permutation_trans IH1 IH2).
Qed.

Lemma fold_left_max_ge (r : list Z) (x : Z) :
  x <= fold_left Z.max r x /\ Forall (fun i => i <= fold_left Z.max r x) r.
Proof.
  revert x. induction r as [|y r IH]; intros x; simpl.
  - split; [lia | constructor].
  - destruct (IH (Z.max x y)) as [H1 H2]. split; [lia|].
    constructor; [lia | exact H2].
Qed.

Lemma fold_left_max_in (r : list Z) (x : Z) :
  fold_left Z.max r x = x \/ In (fold_left Z.max r x) r.
Proof.
  revert x. induction r as [|y r IH]; intros x; simpl; [left; reflexivity|].
  destruct (IH (Z.max x y)) as [H|H].
  - rewrite H. destruct (Z.max_spec x y) as [[_ E]|[_ E]]; rewrite E; auto.
  - right. right. exact H.
Qed.

Lemma py_max_spec (xs : list Z) :
  xs <> [] ->
  exists m, py_max xs = Ok m /\ In m xs /\ Forall (fun i => i <= m) xs.
Proof.
  destruct xs as [|x r]; [contradiction|]. intros _.
  exists (fold_left Z.max r x). split; [reflexivity|].
  destruct (fold_left_max_ge r x) as [Hx Hr]. split.
  - destruct (fold_left_max_in r x) as [E|E]; [left; symmetry; exact E | right; exact E].
  - constructor; assumption.
Qed.

Section Claims.

Context {AS : ArgSort}.
Variable W : world.

(** C3.  After construction every index held is strictly above the
    watermark, and the (path, index) pairs held are exactly the scanned
    pairs whose index is strictly above it. *)
Theorem discard_old_keeps_exactly_newer (cfg : config) (h : ImageHandler) :
  constructed W cfg h ->
  Forall (fun i => LAST_IMAGE_IDX cfg < i) (indices h)
  /\ List.length (files h) = List.length (indices h)
  /\ exists ix,
       mapM (image_name_to_index cfg) (scanned W cfg) = Ok ix
       /\ Permutation
            (combine (files h) (indices h))
            (filter (fun p => LAST_IMAGE_IDX cfg <? snd p)
                    (combine (scanned W cfg) ix)).
Proof.
  intros [_ Hinit].
  pose proof (init_consistent W cfg h Hinit) as Hc.
  destruct (consistent_length W h Hc) as [Hlen _].
  apply init_spec in Hinit.
  destruct Hinit as (ix & fs' & ix' & Hix & Hperm & _ & _ & Hpairs & _ & _ & _ & Hcfg & _).
  split; [|split].
  - rewrite <- Hcfg. apply (indices_fresh W h Hc).
  - symmetry. exact Hlen.
  - exists ix. split; [exact Hix|].
    rewrite Hpairs. apply Permutation_filter. exact Hperm.
Qed.

(** C4.  After construction the indices held are in non-decreasing
    order, each the index parsed from the file at the same position. *)
Theorem sort_names_by_indices_ascending (cfg : config) (h : ImageHandler) :
  constructed W cfg h ->
  StronglySorted Z.le (indices h)
  /\ mapM (image_name_to_index cfg) (files h) = Ok (indices h).
Proof.
  intros [_ Hinit]. apply (init_ascending W cfg h Hinit).
Qed.

(** C6.  On a constructed handler [max] returns -1 when nothing is
    held, and otherwise the greatest index held. *)
Theorem max_is_highest_index (cfg : config) (h : ImageHandler) :
  constructed W cfg h ->
  (files h = [] -> max h = Ok (-1))
  /\ (files h <> [] ->
      exists m, max h = Ok m /\ In m (indices h)
                /\ Forall (fun i => i <= m) (indices h)).
Proof.
  intros [_ Hinit].
  pose proof (init_consistent W cfg h Hinit) as Hc.
  destruct (consistent_length W h Hc) as [Hlen _].
  unfold max. split; intros Hf.
  - rewrite Hf. reflexivity.
  - destruct (files h) as [|f fs] eqn:Ef; [contradiction|].
    simpl. apply py_max_spec.
    intros E. rewrite E in Hlen. discriminate.
Qed.

End Claims.

(** ** Iteration *)

Lemma skipn_nth_error {A : Type} (l : list A) (k : nat) (x : A) :
  nth_error l k = Some x -> skipn k l = x :: skipn (S k) l.
Proof.
  revert k. induction l as [|y r IH]; intros k H.
  - destruct k; discriminate.
  - destruct k as [|k]; simpl in *.
    + inversion H. reflexivity.
    + apply IH. exact H.
Qed.

Lemma set_cnt_same (h : ImageHandler) : set_cnt h (cnt h) = h.
Proof. destruct h. reflexivity. Qed.

Lemma next_in_range (h : ImageHandler) :
  List.length (images h) = List.length (files h) ->
  (cnt h < List.length (files h))%nat ->
  exists item,
    nth_error (items h) (cnt h) = Some item
    /\ next h = (Ok item, set_cnt h (S (cnt h))).
Proof.
  intros Hlen Hlt. unfold next.
  destruct (Nat.eqb_spec (cnt h) (List.length (files h))) as [E|_]; [lia|].
  destruct (nth_error (files h) (cnt h)) as [f|] eqn:Ef;
    [|apply nth_error_None in Ef; lia].
  destruct (nth_error (images h) (cnt h)) as [img|] eqn:Ei;
    [|apply nth_error_None in Ei; lia].
  exists (os_path_basename f, img). split; [|reflexivity].
  apply nth_error_combine; [|exact Ei].
  apply map_nth_error. exact Ef.
Qed.

Lemma next_loop_from (n : nat) (h : ImageHandler) :
  List.length (images h) = List.length (files h) ->
  (cnt h <= List.length (files h))%nat ->
  (List.length (files h) - cnt h <= n)%nat ->
  next_loop (S n) h
  = Some (Ok (skipn (cnt h) (items h)), set_cnt h (List.length (files h))).
Proof.
  revert h. induction n as [|n IH]; intros h Hlen Hle Hn.
  - assert (E : cnt h = List.length (files h)) by lia.
    simpl. unfold next. rewrite E, Nat.eqb_refl.
    rewrite <- E at 2. rewrite set_cnt_same. f_equal. f_equal. f_equal.
    symmetry. apply skipn_all2. unfold items.
    rewrite length_combine, length_map. lia.
  - destruct (Nat.eq_dec (cnt h) (List.length (files h))) as [E|Hne].
    + change (next_loop (S (S n)) h)
        with (match next h with
              | (Ok item, h') =>
                  match next_loop (S n) h' with
                  | Some (Ok its, h'') => Some (Ok (item :: its), h'')
                  | other => other
                  end
              | (Raise StopIteration, h') => Some (Ok [], h')
              | (Raise e, h') => Some (Raise e, h')
              end).
      unfold next. rewrite E, Nat.eqb_refl.
      rewrite <- E at 2. rewrite set_cnt_same. f_equal. f_equal. f_equal.
      symmetry. apply skipn_all2. unfold items.
      rewrite length_combine, length_map. lia.
    + destruct (next_in_range h Hlen) as (item & Hitem & Hnext); [lia|].
      change (next_loop (S (S n)) h)
        with (match next h with
              | (Ok item, h') =>
                  match next_loop (S n) h' with
                  | Some (Ok its, h'') => Some (Ok (item :: its), h'')
                  | other => other
                  end
              | (Raise StopIteration, h') => Some (Ok [], h')
              | (Raise e, h') => Some (Raise e, h')
              end).
      rewrite Hnext.
      rewrite (IH (set_cnt h (S (cnt h)))); simpl; try lia; try assumption.
      rewrite (skipn_nth_error _ _ _ Hitem). reflexivity.
Qed.

Section Iteration.

Context {AS : ArgSort}.
Variable W : world.

(** C9.  A pass over a constructed handler yields, position by
    position, the base name of each file held with its decoded image, the
    files being in ascending index order; the pass leaves the files, the
    indices and the images as they were, and a second pass, started after
    the first is exhausted, yields the same pairs again. *)
Theorem iteration_in_order_and_restartable
        (cfg : config) (h : ImageHandler) (fuel : nat) :
  constructed W cfg h ->
  (len h < fuel)%nat ->
  exists h',
    for_loop fuel h = Some (Ok (items h), h')
    /\ for_loop fuel h' = Some (Ok (items h), h')
    /\ next h' = (Raise StopIteration, h')
    /\ files h' = files h /\ indices h' = indices h /\ images h' = images h
    /\ images h = map (fun f => cv2_imread W f (flag h)) (files h)
    /\ mapM (image_name_to_index cfg) (files h) = Ok (indices h)
    /\ StronglySorted Z.le (indices h).
Proof.
  intros [_ Hinit] Hfuel.
  destruct (init_ascending W cfg h Hinit) as [Hsorted Hparsed].
  pose proof (init_consistent W cfg h Hinit) as Hc.
  destruct (consistent_length W h Hc) as [_ Hlen].
  unfold len in Hfuel.
  destruct fuel as [|n]; [lia|].
  exists (set_cnt h (List.length (files h))).
  unfold for_loop, iter.
  repeat split; try assumption; try reflexivity.
  - rewrite next_loop_from; simpl; try lia; try assumption. reflexivity.
  - rewrite next_loop_from; simpl; try lia; try assumption. reflexivity.
  - unfold next. simpl. rewrite Nat.eqb_refl. reflexivity.
  - apply (images_of_files W h Hc).
Qed.

End Iteration.

(** ** Export *)

Lemma io_bind_lift {A B : Type} (r : result A) (k : A -> io B) :
  io_bind (lift r) k = match r with
                       | Ok a => k a
                       | Raise e => ([], Raise e)
                       end.
Proof.
  destruct r as [a|e]; simpl; [|reflexivity].
  destruct (k a). reflexivity.
Qed.

Lemma prepared_length (W : world) (cfg : config) (imgs imgs' : list image) :
  prepared W cfg imgs = Ok imgs' -> List.length imgs' = List.length imgs.
Proof.
  unfold prepared. destruct imgs as [|img r]; [discriminate|].
  unfold bind at 1.
  destruct (ndim img =? 3).
  - destruct (mapM (cv2_cvtColor_BGR2RGB W) (img :: r)) as [c|e] eqn:E;
      unfold bind at 1; [|discriminate].
    intros H. apply mapM_length in H. apply mapM_length in E. lia.
  - unfold bind at 1. intros H. apply mapM_length in H. exact H.
Qed.

Section SaveSteps.

Variable W : world.

Lemma save_steps (h : ImageHandler) (imgs : list image) :
  files h <> [] ->
  directory_ready W h ->
  save W h imgs =
  ((ensure_directory W h ++
    fst (match prepared W (CFG h) imgs with
         | Ok imgs' =>
             if Str.mem (Str.lower (SAVE_FORMAT (CFG h))) IMAGE_FORMATS
             then save_as_images W h 0%nat imgs'
             else save_as_pdf W h imgs'
         | Raise e => ([], Raise e)
         end))%list,
   snd (match prepared W (CFG h) imgs with
        | Ok imgs' =>
            if Str.mem (Str.lower (SAVE_FORMAT (CFG h))) IMAGE_FORMATS
            then save_as_images W h 0%nat imgs'
            else save_as_pdf W h imgs'
        | Raise e => ([], Raise e)
        end)).
Proof.
  intros Hf Hdir. unfold save, ensure_directory.
  destruct (files h) as [|f fs] eqn:Ef; [contradiction|]. simpl List.length.
  cbv beta iota delta [Nat.eqb].
  assert (Hrest : forall (X : io unit),
            (let '(t', r) := X in (([] ++ t')%list, r)) = (([] ++ fst X)%list, snd X)).
  { intros [t r]. reflexivity. }
  assert (Hrest' : forall p (X : io unit),
            (let '(t', r) := X in (([Mkdir p] ++ t')%list, r))
            = (([Mkdir p] ++ fst X)%list, snd X)).
  { intros p [t r]. reflexivity. }
  assert (Hbody :
    (first <~ lift match imgs with
                   | [] => Raise IndexError
                   | img :: _ => Ok img
                   end ;;
     imgs0 <~ lift (if ndim first =? 3
                    then mapM (cv2_cvtColor_BGR2RGB W) imgs
                    else Ok imgs) ;;
     imgs1 <~ lift (mapM (resize_to_A4 (CFG h)) imgs0) ;;
     (if Str.mem (Str.lower (SAVE_FORMAT (CFG h))) IMAGE_FORMATS
      then save_as_images W h 0%nat imgs1
      else save_as_pdf W h imgs1))
    = match prepared W (CFG h) imgs with
      | Ok imgs' =>
          if Str.mem (Str.lower (SAVE_FORMAT (CFG h))) IMAGE_FORMATS
          then save_as_images W h 0%nat imgs'
          else save_as_pdf W h imgs'
      | Raise e => ([], Raise e)
      end).
  { unfold prepared. rewrite io_bind_lift.
    destruct imgs as [|img r]; [reflexivity|].
    cbv beta iota delta [bind]. rewrite io_bind_lift.
    destruct (if ndim img =? 3 then mapM (cv2_cvtColor_BGR2RGB W) (img :: r)
              else Ok (img :: r)) as [imgs0|e]; [|reflexivity].
    rewrite io_bind_lift. reflexivity. }
  destruct (os_path_exists W (SAVE_PATH (CFG h))) eqn:Ex.
  - unfold io_ret, io_bind at 1. rewrite Hbody. apply Hrest.
  - destruct Hdir as [Hd|Hd]; [rewrite Ex in Hd; discriminate|].
    unfold mkdir. rewrite Hd. unfold io_bind at 1. rewrite Hbody. apply Hrest'.
Qed.

End SaveSteps.

(** ** Time stamps *)

Lemma digit_char_not_slash (n : Z) : Ascii.eqb (digit_char n) "/" = false.
Proof.
  unfold digit_char.
  assert (H : (Z.to_nat (n mod 10) < 10)%nat).
  { pose proof (Z.mod_pos_bound n 10). lia. }
  destruct (Z.to_nat (n mod 10)) as [|k]; [reflexivity|].
  do 9 (destruct k as [|k]; [reflexivity|]). lia.
Qed.

Lemma has_slash_two_digits (n : Z) : Str.has_slash (two_digits n) = false.
Proof.
  unfold two_digits. cbn [Str.has_slash].
  rewrite !digit_char_not_slash. reflexivity.
Qed.

Lemma has_slash_strftime (t : struct_time) :
  Str.has_slash (strftime_d_m_y_H_M t) = false.
Proof.
  unfold strftime_d_m_y_H_M.
  rewrite !has_slash_app, !has_slash_two_digits. reflexivity.
Qed.

(** Two digits written by [strftime] read back as the number written. *)
Lemma two_digits_read_back (n : Z) :
  0 <= n <= 99 -> PyInt.int (two_digits n) = Ok n.
Proof.
  intros Hn.
  assert (Hall : forallb (fun k => match PyInt.int (two_digits (Z.of_nat k)) with
                                   | Ok z => z =? Z.of_nat k
                                   | Raise _ => false
                                   end) (seq 0 100) = true) by (vm_compute; reflexivity).
  rewrite forallb_forall in Hall.
  specialize (Hall (Z.to_nat n)). rewrite Z2Nat.id in Hall by lia.
  destruct (PyInt.int (two_digits n)) as [z|e].
  - f_equal. apply Z.eqb_eq. apply Hall. apply in_seq. lia.
  - assert (false = true); [|discriminate]. apply Hall. apply in_seq. lia.
Qed.

Lemma os_path_basename_join (dir b : string) :
  Str.has_slash b = false -> os_path_basename (os_path_join dir b) = b.
Proof.
  intros Hb. pose proof (basename_join_basename dir b) as H.
  rewrite (os_path_basename_no_slash b Hb) in H. exact H.
Qed.

Section ExportClaims.

Variable W : world.

(** C2.  When the handler holds no file, [save] returns at once
    whatever images it is given: no directory is created and no file is
    written. *)
Theorem save_is_noop_on_empty_ingestion (h : ImageHandler) (imgs : list image) :
  files h = [] ->
  save W h imgs = ([], Ok tt)
  /\ dirs_created (fst (save W h imgs)) = []
  /\ files_written (fst (save W h imgs)) = [].
Proof.
  intros Hf.
  assert (E : save W h imgs = ([], Ok tt)).
  { unfold save. rewrite Hf. reflexivity. }
  rewrite E. repeat split.
Qed.

Lemma save_as_images_written (h : ImageHandler) (imgs : list image) (i : nat) :
  (forall p img, cv2_imwrite W p img = Written) ->
  (i + List.length imgs <= List.length (files h))%nat ->
  save_as_images W h i imgs
  = (map (fun x => ImageFile (os_path_join (SAVE_PATH (CFG h))
                                           (os_path_basename (fst x))) (snd x))
         (combine (firstn (List.length imgs) (skipn i (files h))) imgs),
     Ok tt).
Proof.
  intros Hw. revert i. induction imgs as [|img r IH]; intros i Hlen.
  - reflexivity.
  - simpl in Hlen.
    destruct (nth_error (files h) i) as [f|] eqn:Ef;
      [|apply nth_error_None in Ef; lia].
    rewrite (skipn_nth_error _ _ _ Ef).
    cbn [save_as_images]. rewrite Ef, io_bind_lift. unfold imwrite. rewrite Hw.
    unfold io_bind at 1. rewrite IH by lia. reflexivity.
Qed.

(** Given more images than files are held, the loop writes one file
    per file held and then raises [IndexError] at [self.files[i]]. *)
Lemma save_as_images_out_of_files (h : ImageHandler) (imgs : list image) (i : nat) :
  (forall p img, cv2_imwrite W p img = Written) ->
  (i <= List.length (files h))%nat ->
  (List.length (files h) < i + List.length imgs)%nat ->
  save_as_images W h i imgs
  = (map (fun x => ImageFile (os_path_join (SAVE_PATH (CFG h))
                                           (os_path_basename (fst x))) (snd x))
         (combine (skipn i (files h)) imgs),
     Raise IndexError).
Proof.
  intros Hw. revert i. induction imgs as [|img r IH]; intros i Hi Hlen.
  - simpl in Hlen. lia.
  - simpl in Hlen. cbn [save_as_images].
    destruct (nth_error (files h) i) as [f|] eqn:Ef.
    + assert (i < List.length (files h))%nat
        by (apply nth_error_Some; rewrite Ef; discriminate).
      rewrite (skipn_nth_error _ _ _ Ef).
      rewrite io_bind_lift. unfold imwrite. rewrite Hw.
      unfold io_bind at 1. rewrite IH by lia. reflexivity.
    + apply nth_error_None in Ef. rewrite skipn_all2 by exact Ef.
      rewrite io_bind_lift. reflexivity.
Qed.

Lemma image_files_map (dir : string) (l : list (string * image)) :
  image_files (map (fun x => ImageFile (os_path_join dir (os_path_basename (fst x)))
                                         (snd x)) l)
  = map (fun x => (os_path_join dir (os_path_basename (fst x)), snd x)) l.
Proof. induction l as [|x r IH]; simpl; [reflexivity | rewrite IH; reflexivity]. Qed.

Lemma files_written_map (dir : string) (l : list (string * image)) :
  files_written (map (fun x => ImageFile (os_path_join dir (os_path_basename (fst x)))
                                           (snd x)) l)
  = map (fun x => (os_path_join dir (os_path_basename (fst x)), 1%nat)) l.
Proof. induction l as [|x r IH]; simpl; [reflexivity | rewrite IH; reflexivity]. Qed.

Lemma image_files_app (a b : list effect) :
  image_files (a ++ b)%list = (image_files a ++ image_files b)%list.
Proof.
  induction a as [|e r IH]; simpl; [reflexivity|].
  destruct e; simpl; rewrite IH; reflexivity.
Qed.

Lemma files_written_app (a b : list effect) :
  files_written (a ++ b)%list = (files_written a ++ files_written b)%list.
Proof.
  induction a as [|e r IH]; simpl; [reflexivity|].
  destruct e; simpl; rewrite IH; reflexivity.
Qed.

Lemma files_written_ensure_directory (h : ImageHandler) :
  files_written (ensure_directory W h) = []
  /\ image_files (ensure_directory W h) = [].
Proof.
  unfold ensure_directory.
  destruct (os_path_exists W (SAVE_PATH (CFG h))); split; reflexivity.
Qed.

End ExportClaims.

Lemma map_combine_fst {A B C : Type} (g : A -> C) (a : list A) (b : list B) :
  map (fun x => (g (fst x), snd x)) (combine a b) = combine (map g a) b.
Proof.
  revert b. induction a as [|x r IH]; intros [|y s]; simpl; try reflexivity.
  rewrite IH. reflexivity.
Qed.

Section SaveClaims.

Variable W : world.

(** C7.  With a recognised image format and a handler that holds
    files, [save] writes the i-th prepared image under the output
    directory with the base name of the i-th file held, one file per
    image; given as many images as files are held, the base names written
    are the base names of the files held, in order. *)
Theorem save_as_images_reuses_base_names
        (h : ImageHandler) (imgs imgs' : list image) :
  files h <> [] ->
  Str.mem (Str.lower (SAVE_FORMAT (CFG h))) IMAGE_FORMATS = true ->
  directory_ready W h ->
  (forall p img, cv2_imwrite W p img = Written) ->
  prepared W (CFG h) imgs = Ok imgs' ->
  (List.length imgs <= List.length (files h))%nat ->
  let sources := firstn (List.length imgs) (files h) in
  let written := fst (save W h imgs) in
  snd (save W h imgs) = Ok tt
  /\ image_files written
     = combine (map (fun f => os_path_join (SAVE_PATH (CFG h)) (os_path_basename f))
                    sources) imgs'
  /\ map (fun x => os_path_basename (fst x)) (files_written written)
     = map os_path_basename sources
  /\ List.length (files_written written) = List.length imgs
  /\ (List.length imgs = List.length (files h) ->
      map (fun x => os_path_basename (fst x)) (files_written written)
      = map os_path_basename (files h)).
Proof.
  intros Hf Hfmt Hdir Hw Hprep Hlen sources written.
  pose proof (prepared_length _ _ _ _ Hprep) as Hlen'.
  assert (Hsrc : List.length sources = List.length imgs').
  { unfold sources. rewrite length_firstn. lia. }
  assert (Hsave : save W h imgs
                  = ((ensure_directory W h ++
                      map (fun x => ImageFile (os_path_join (SAVE_PATH (CFG h))
                                                 (os_path_basename (fst x))) (snd x))
                          (combine sources imgs'))%list, Ok tt)).
  { rewrite (save_steps W h imgs Hf Hdir), Hprep, Hfmt.
    rewrite (save_as_images_written W h imgs' 0 Hw) by (simpl; lia).
    simpl skipn. rewrite Hlen'. reflexivity. }
  destruct (files_written_ensure_directory W h) as [Hd1 Hd2].
  assert (Hnames : map (fun x => os_path_basename (fst x)) (files_written written)
                   = map os_path_basename sources).
  { unfold written. rewrite Hsave. simpl fst.
    rewrite files_written_app, Hd1, files_written_map. simpl app.
    rewrite map_map. simpl fst.
    rewrite (map_ext _ (fun x => os_path_basename (fst x)))
      by (intros x; apply basename_join_basename).
    rewrite <- (map_map fst os_path_basename).
    rewrite map_fst_combine by exact Hsrc. reflexivity. }
  split; [rewrite Hsave; reflexivity|].
  split.
  { unfold written. rewrite Hsave. simpl fst.
    rewrite image_files_app, Hd2, image_files_map. simpl app.
    apply (map_combine_fst
             (fun f => os_path_join (SAVE_PATH (CFG h)) (os_path_basename f))). }
  split; [exact Hnames|].
  split.
  { rewrite <- (length_map (fun x => os_path_basename (fst x))), Hnames.
    rewrite length_map. lia. }
  intros Heq. rewrite Hnames. unfold sources.
  rewrite Heq, firstn_all. reflexivity.
Qed.

(** C8.  With any other format and a handler that holds files,
    [save] writes exactly one file, with one page per image given; the
    file is in the output directory and its name is the output prefix,
    an underscore, the local day, month, two-digit year, hour and minute
    as [DD_MM_YY-HH_MM], and [.pdf]. *)
Theorem save_as_pdf_writes_one_timestamped_file
        (h : ImageHandler) (imgs imgs' : list image) (pages : list pil_image) :
  files h <> [] ->
  Str.mem (Str.lower (SAVE_FORMAT (CFG h))) IMAGE_FORMATS = false ->
  directory_ready W h ->
  prepared W (CFG h) imgs = Ok imgs' ->
  mapM Image_fromarray imgs' = Ok pages ->
  pdf_save W (get_pdf_filename W h) pages = None ->
  Str.has_slash (SAVE_PREFIX (CFG h)) = false ->
  valid_time (localtime W) ->
  let t := localtime W in
  let dd := two_digits (tm_mday t) in
  let mm := two_digits (tm_mon t) in
  let yy := two_digits (tm_year t mod 100) in
  let HH := two_digits (tm_hour t) in
  let MM := two_digits (tm_min t) in
  let name := SAVE_PREFIX (CFG h) ++ "_" ++ dd ++ "_" ++ mm ++ "_" ++ yy
              ++ "-" ++ HH ++ "_" ++ MM ++ ".pdf" in
  snd (save W h imgs) = Ok tt
  /\ files_written (fst (save W h imgs))
     = [(os_path_join (SAVE_PATH (CFG h)) name, List.length imgs)]
  /\ os_path_basename (os_path_join (SAVE_PATH (CFG h)) name) = name
  /\ PyInt.int dd = Ok (tm_mday t) /\ PyInt.int mm = Ok (tm_mon t)
  /\ PyInt.int yy = Ok (tm_year t mod 100)
  /\ PyInt.int HH = Ok (tm_hour t) /\ PyInt.int MM = Ok (tm_min t).
Proof.
  intros Hf Hfmt Hdir Hprep Hpages Hpdf Hprefix Htime t dd mm yy HH MM name.
  pose proof (prepared_length _ _ _ _ Hprep) as Hlen'.
  pose proof (mapM_length _ _ _ Hpages) as Hlenp.
  assert (Hname : get_pdf_filename W h = os_path_join (SAVE_PATH (CFG h)) name).
  { unfold get_pdf_filename, strftime_d_m_y_H_M, name, dd, mm, yy, HH, MM, t.
    rewrite !str_app_assoc. reflexivity. }
  assert (Hsave : save W h imgs
                  = ((ensure_directory W h
                      ++ [PdfFile (get_pdf_filename W h) pages])%list, Ok tt)).
  { rewrite (save_steps W h imgs Hf Hdir), Hprep, Hfmt.
    unfold save_as_pdf. rewrite Hpages, io_bind_lift.
    destruct pages as [|root rest].
    - destruct imgs' as [|i0 r0]; [|discriminate].
      unfold prepared in Hprep. destruct imgs; discriminate.
    - rewrite Hpdf. reflexivity. }
  destruct (files_written_ensure_directory W h) as [Hd1 _].
  destruct Htime as (Hmon & Hday & Hhour & Hmin).
  split; [rewrite Hsave; reflexivity|].
  split.
  { rewrite Hsave. simpl fst. rewrite files_written_app, Hd1. simpl.
    rewrite Hname. repeat f_equal. lia. }
  split.
  { apply os_path_basename_join. unfold name.
    rewrite !has_slash_app, Hprefix. unfold dd, mm, yy, HH, MM.
    rewrite !has_slash_two_digits. reflexivity. }
  pose proof (Z.mod_pos_bound (tm_year t) 100).
  repeat split; apply two_digits_read_back; unfold t in *; lia.
Qed.

(** C10.  With a handler that holds files and no image given, [save]
    raises [IndexError] at [images[0]], in either format: the output
    directory has been created if it was missing and nothing is
    written. *)
Theorem save_of_no_image_raises_IndexError (h : ImageHandler) :
  files h <> [] ->
  directory_ready W h ->
  snd (save W h []) = Raise IndexError
  /\ fst (save W h []) = ensure_directory W h
  /\ files_written (fst (save W h [])) = [].
Proof.
  intros Hf Hdir.
  assert (Hsave : save W h [] = (ensure_directory W h, Raise IndexError)).
  { rewrite (save_steps W h [] Hf Hdir). simpl. rewrite app_nil_r. reflexivity. }
  rewrite Hsave. simpl.
  destruct (files_written_ensure_directory W h) as [Hd _].
  repeat split. exact Hd.
Qed.

End SaveClaims.

(** ** The page size *)

Lemma size_eqb_eq (r : result (Z * Z)) (wh : Z * Z) :
  size_eqb r wh = true -> r = Ok wh.
Proof.
  destruct r as [[w h]|e]; simpl; [|discriminate].
  destruct wh as [w' h']. simpl. intros H.
  apply andb_true_iff in H. destruct H as [Hw Hh].
  apply Z.eqb_eq in Hw. apply Z.eqb_eq in Hh. subst. reflexivity.
Qed.

Lemma A4_size_depends_on_dpi (cfg : config) :
  A4_size cfg = A4_size (dpi_config (SAVE_DPI cfg)).
Proof. unfold A4_size. reflexivity. Qed.

Lemma A4_size_up_to_2400 (dpi : Z) :
  1 <= dpi <= 2400 ->
  A4_size (dpi_config (PyInt dpi)) = Ok (truncated_size dpi)
  /\ A4_size (dpi_config (PyFloat (Float.of_int dpi))) = Ok (truncated_size dpi).
Proof.
  intros Hd.
  assert (Hall : forallb
            (fun k =>
               let d := Z.of_nat k in
               size_eqb (A4_size (dpi_config (PyInt d))) (truncated_size d)
               && size_eqb (A4_size (dpi_config (PyFloat (Float.of_int d))))
                           (truncated_size d))
            (seq 1 2400) = true) by (vm_compute; reflexivity).
  rewrite forallb_forall in Hall.
  specialize (Hall (Z.to_nat dpi)). rewrite Z2Nat.id in Hall by lia.
  assert (Hin : In (Z.to_nat dpi) (seq 1 2400)) by (apply in_seq; lia).
  apply Hall in Hin. apply andb_true_iff in Hin. destruct Hin as [H1 H2].
  split; apply size_eqb_eq; assumption.
Qed.

Lemma to_int_whole_part (x : spec_float) (n : Z) :
  Float.to_int x = Ok n <-> whole_part_is x n.
Proof.
  destruct x as [s|s| |s m e]; unfold Float.to_int, whole_part_is; cbv zeta.
  - split; [intros H; inversion H; reflexivity | intros ->; reflexivity].
  - split; [discriminate | contradiction].
  - split; [discriminate | contradiction].
  - destruct (Z.leb_spec 0 e) as [He|He].
    + set (v := Zpos m * 2 ^ e).
      assert (Hv : 0 <= v)
        by (apply Z.mul_nonneg_nonneg; [lia | apply Z.pow_nonneg; lia]).
      split.
      * intros H. inversion H. destruct s; split; lia.
      * intros [Ha Hv']. f_equal. destruct s; lia.
    + assert (Hpos : 0 < 2 ^ (- e)) by (apply Z.pow_pos_nonneg; lia).
      set (d := 2 ^ (- e)) in *.
      pose proof (Z.mul_div_le (Zpos m) d Hpos) as D1.
      pose proof (Z.mul_succ_div_gt (Zpos m) d Hpos) as D2.
      assert (D0 : 0 <= Zpos m / d) by (apply Z.div_pos; lia).
      set (k := Zpos m / d) in *.
      split.
      * intros H. inversion H. destruct s.
        -- replace (- - k) with k by lia. split; [exact D0|]. split; nia.
        -- split; [exact D0|]. split; nia.
      * intros [Ha [Hlo Hhi]]. f_equal.
        assert (E : k = (if s then - n else n)).
        { unfold k. symmetry.
          apply (Z.div_unique _ _ _ (Zpos m - (if s then - n else n) * d));
            [left; split; nia | ring]. }
        rewrite E. destruct s; lia.
Qed.

(** C5 (as the code behaves).  For every non-empty image and every
    configured resolution, with [q] the double [300 / dpi], the page is
    resized to [int(3508 * q)] rows and [int(2480 * q)] columns, the
    double products cut to their whole parts and not rounded, whenever
    these are sizes [cv2.resize] takes. *)
Theorem resize_to_A4_truncates
        (cfg : config) (img : image) (q : spec_float) (w h : Z) :
  Float.truediv 300 (SAVE_DPI cfg) = Ok q ->
  whole_part_is (Float.mul 3508 q) h ->
  whole_part_is (Float.mul 2480 q) w ->
  valid_size w h ->
  nonempty img = true ->
  exists img',
    resize_to_A4 cfg img = Ok img'
    /\ rows img' = h
    /\ cols img' = w
    /\ data img' = Resized (data img) w h.
Proof.
  intros Hq Hh Hw Hvalid Hne.
  apply to_int_whole_part in Hh. apply to_int_whole_part in Hw.
  assert (Hsize : A4_size cfg = Ok (w, h)).
  { unfold A4_size. rewrite Hq. cbn [bind]. rewrite Hh. cbn [bind].
    rewrite Hw. reflexivity. }
  destruct Hvalid as [[Hw1 Hw2] [Hh1 Hh2]].
  unfold resize_to_A4. rewrite Hsize. cbn [bind]. unfold cv2_resize. rewrite Hne.
  replace (0 <? w) with true by (symmetry; apply Z.ltb_lt; exact Hw1).
  replace (w <=? INT_MAX) with true by (symmetry; apply Z.leb_le; exact Hw2).
  replace (0 <? h) with true by (symmetry; apply Z.ltb_lt; exact Hh1).
  replace (h <=? INT_MAX) with true by (symmetry; apply Z.leb_le; exact Hh2).
  eexists. split; [reflexivity|]. repeat split.
Qed.

(** C5 (as stated) fails at 350 dpi: the page gets 3006 rows and
    2125 columns, where rounding gives 3007 and 2126. *)
Lemma resize_to_A4_does_not_round_at_350 :
  exists img',
    resize_to_A4 (dpi_config (PyInt 350)) (grey_page "page") = Ok img'
    /\ rows img' = 3006 /\ cols img' = 2125
    /\ spec_target_height 350 = 3007 /\ spec_target_width 350 = 2126
    /\ rows img' <> spec_target_height 350
    /\ cols img' <> spec_target_width 350.
Proof.
  eexists. split; [vm_compute; reflexivity|].
  vm_compute. repeat split; discriminate.
Qed.

(** At a resolution of a million the width is cut to 0, a size
    [cv2.resize] does not take. *)
Lemma resize_to_A4_refused_at_a_million_dpi :
  A4_size (dpi_config (PyInt 1000000)) = Ok (0, 1)
  /\ resize_to_A4 (dpi_config (PyInt 1000000)) (grey_page "page") = Raise cv2_error.
Proof. split; vm_compute; reflexivity. Qed.

(** ** The scanner with three pages *)

Lemma scanner_handler_constructed (format : string) :
  constructed (AS := merge_ArgSort) scanner_world (scanner_config format)
              (scanner_handler format).
Proof. split; vm_compute; reflexivity. Qed.

Lemma image_name_to_index_all_zeros_witness :
  Str.has_slash "IMG_" = false
  /\ Str.has_slash "jpg" = false
  /\ image_name_to_index (scanner_config "pdf") "IMG_000000.jpg" = Raise ValueError.
Proof.
  split; [reflexivity|]. split; [reflexivity|].
  exact (image_name_to_index_all_zeros (scanner_config "pdf") 6 "jpg"
           eq_refl eq_refl).
Defined.

Lemma save_is_noop_on_empty_ingestion_witness :
  files idle_handler = []
  /\ save scanner_world idle_handler [grey_page "a"; grey_page "b"] = ([], Ok tt).
Proof.
  split; [reflexivity|].
  exact (proj1 (save_is_noop_on_empty_ingestion scanner_world idle_handler
                  [grey_page "a"; grey_page "b"] eq_refl)).
Defined.

Lemma discard_old_keeps_exactly_newer_witness :
  constructed (AS := merge_ArgSort) scanner_world (scanner_config "pdf")
              (scanner_handler "pdf")
  /\ Forall (fun i => 3 < i) [7; 12].
Proof.
  split; [exact (scanner_handler_constructed "pdf")|].
  refine (proj1 (discard_old_keeps_exactly_newer (AS := merge_ArgSort)
                   scanner_world (scanner_config "pdf") (scanner_handler "pdf")
                   (scanner_handler_constructed "pdf"))).
Defined.

Lemma sort_names_by_indices_ascending_witness :
  constructed (AS := merge_ArgSort) scanner_world (scanner_config "pdf")
              (scanner_handler "pdf")
  /\ StronglySorted Z.le [7; 12].
Proof.
  split; [exact (scanner_handler_constructed "pdf")|].
  refine (proj1 (sort_names_by_indices_ascending (AS := merge_ArgSort)
                   scanner_world (scanner_config "pdf") (scanner_handler "pdf")
                   (scanner_handler_constructed "pdf"))).
Defined.

Lemma max_is_highest_index_witness :
  constructed (AS := merge_ArgSort) scanner_world (scanner_config "pdf")
              (scanner_handler "pdf")
  /\ exists m, max (scanner_handler "pdf") = Ok m
               /\ In m [7; 12] /\ Forall (fun i => i <= m) [7; 12].
Proof.
  split; [exact (scanner_handler_constructed "pdf")|].
  refine (proj2 (max_is_highest_index (AS := merge_ArgSort)
                   scanner_world (scanner_config "pdf") (scanner_handler "pdf")
                   (scanner_handler_constructed "pdf")) _).
  discriminate.
Defined.

Lemma iteration_in_order_and_restartable_witness :
  constructed (AS := merge_ArgSort) scanner_world (scanner_config "pdf")
              (scanner_handler "pdf")
  /\ (len (scanner_handler "pdf") < 3)%nat
  /\ exists h',
       for_loop 3 (scanner_handler "pdf")
       = Some (Ok [("IMG_000007.jpg", Some (grey_page "/media/scanner/IMG_000007.jpg"));
                   ("IMG_000012.jpg", Some (grey_page "/media/scanner/IMG_000012.jpg"))],
               h')
       /\ for_loop 3 h'
          = Some (Ok [("IMG_000007.jpg", Some (grey_page "/media/scanner/IMG_000007.jpg"));
                      ("IMG_000012.jpg", Some (grey_page "/media/scanner/IMG_000012.jpg"))],
                  h').
Proof.
  split; [exact (scanner_handler_constructed "pdf")|].
  split; [vm_compute; reflexivity|].
  destruct (iteration_in_order_and_restartable (AS := merge_ArgSort)
              scanner_world (scanner_config "pdf") (scanner_handler "pdf") 3)
    as (h' & H1 & H2 & _).
  - exact (scanner_handler_constructed "pdf").
  - vm_compute. reflexivity.
  - exists h'. split; [exact H1 | exact H2].
Defined.

Lemma save_as_images_reuses_base_names_witness :
  files (scanner_handler "JPG") <> []
  /\ Str.mem (Str.lower "JPG") IMAGE_FORMATS = true
  /\ directory_ready scanner_world (scanner_handler "JPG")
  /\ prepared scanner_world (scanner_config "JPG") [grey_page "a"; grey_page "b"]
     = Ok [a4_page "a"; a4_page "b"]
  /\ image_files (fst (save scanner_world (scanner_handler "JPG")
                           [grey_page "a"; grey_page "b"]))
     = [("out/IMG_000007.jpg", a4_page "a"); ("out/IMG_000012.jpg", a4_page "b")].
Proof.
  assert (Hdir : directory_ready scanner_world (scanner_handler "JPG"))
    by (right; reflexivity).
  assert (Hprep : prepared scanner_world (scanner_config "JPG") [grey_page "a"; grey_page "b"]
                  = Ok [a4_page "a"; a4_page "b"]) by (vm_compute; reflexivity).
  split; [discriminate|]. split; [reflexivity|]. split; [exact Hdir|].
  split; [exact Hprep|].
  refine (proj1 (proj2 (save_as_images_reuses_base_names scanner_world
                          (scanner_handler "JPG") [grey_page "a"; grey_page "b"]
                          [a4_page "a"; a4_page "b"] _ _ Hdir _ Hprep _))).
  - discriminate.
  - reflexivity.
  - intros p img. reflexivity.
  - simpl. lia.
Defined.

Lemma save_as_pdf_writes_one_timestamped_file_witness :
  files (scanner_handler "pdf") <> []
  /\ Str.mem (Str.lower "pdf") IMAGE_FORMATS = false
  /\ directory_ready scanner_world (scanner_handler "pdf")
  /\ Str.has_slash "scan" = false
  /\ valid_time (localtime scanner_world)
  /\ files_written (fst (save scanner_world (scanner_handler "pdf")
                             [grey_page "a"; grey_page "b"; grey_page "c"]))
     = [("out/scan_09_03_24-14_05.pdf", 3%nat)].
Proof.
  assert (Hdir : directory_ready scanner_world (scanner_handler "pdf"))
    by (right; reflexivity).
  assert (Htime : valid_time (localtime scanner_world))
    by (unfold valid_time; simpl; lia).
  split; [discriminate|]. split; [reflexivity|]. split; [exact Hdir|].
  split; [reflexivity|]. split; [exact Htime|].
  refine (proj1 (proj2 (save_as_pdf_writes_one_timestamped_file scanner_world
                          (scanner_handler "pdf")
                          [grey_page "a"; grey_page "b"; grey_page "c"]
                          [a4_page "a"; a4_page "b"; a4_page "c"]
                          [ {| mode := L; raster_of := a4_page "a" |};
                            {| mode := L; raster_of := a4_page "b" |};
                            {| mode := L; raster_of := a4_page "c" |} ]
                          _ _ Hdir _ _ _ _ Htime))).
  - discriminate.
  - reflexivity.
  - vm_compute. reflexivity.
  - reflexivity.
  - reflexivity.
  - reflexivity.
Defined.

Lemma save_of_no_image_raises_IndexError_witness :
  files (scanner_handler "pdf") <> []
  /\ directory_ready scanner_world (scanner_handler "pdf")
  /\ save scanner_world (scanner_handler "pdf") [] = ([Mkdir "out"], Raise IndexError)
  /\ save scanner_world (scanner_handler "JPG") [] = ([Mkdir "out"], Raise IndexError).
Proof.
  assert (Hdir : forall fmt, directory_ready scanner_world (scanner_handler fmt))
    by (intros fmt; right; reflexivity).
  assert (Hf : forall fmt, files (scanner_handler fmt) <> []) by (intros fmt; discriminate).
  split; [apply Hf|]. split; [apply Hdir|].
  split.
  - destruct (save_of_no_image_raises_IndexError scanner_world
                (scanner_handler "pdf") (Hf "pdf") (Hdir "pdf")) as (H1 & H2 & _).
    rewrite (surjective_pairing (save scanner_world (scanner_handler "pdf") [])).
    rewrite H1, H2. reflexivity.
  - destruct (save_of_no_image_raises_IndexError scanner_world
                (scanner_handler "JPG") (Hf "JPG") (Hdir "JPG")) as (H1 & H2 & _).
    rewrite (surjective_pairing (save scanner_world (scanner_handler "JPG") [])).
    rewrite H1, H2. reflexivity.
Defined.

Ltac check_whole_parts :=
  split; [vm_compute; reflexivity|];
  split; [apply to_int_whole_part; vm_compute; reflexivity|];
  split; [apply to_int_whole_part; vm_compute; reflexivity|];
  unfold valid_size, INT_MAX; lia.

Lemma resize_to_A4_truncates_witness :
  (exists q,
      (Float.truediv 300 (PyInt 300) = Ok q
       /\ whole_part_is (Float.mul 3508 q) 3508
       /\ whole_part_is (Float.mul 2480 q) 2480
       /\ valid_size 2480 3508)
      /\ exists img',
           resize_to_A4 (dpi_config (PyInt 300)) (grey_page "page") = Ok img'
           /\ rows img' = 3508 /\ cols img' = 2480)
  /\ (exists q,
         (Float.truediv 300 (PyInt 150) = Ok q
          /\ whole_part_is (Float.mul 3508 q) 7016
          /\ whole_part_is (Float.mul 2480 q) 4960
          /\ valid_size 4960 7016)
         /\ exists img',
              resize_to_A4 (dpi_config (PyInt 150)) (grey_page "page") = Ok img'
              /\ rows img' = 7016 /\ cols img' = 4960)
  /\ (exists q,
         (Float.truediv 300 (PyFloat double_72_5) = Ok q
          /\ whole_part_is (Float.mul 3508 q) 14515
          /\ whole_part_is (Float.mul 2480 q) 10262
          /\ valid_size 10262 14515)
         /\ exists img',
              resize_to_A4 (dpi_config (PyFloat double_72_5)) (grey_page "page") = Ok img'
              /\ rows img' = 14515 /\ cols img' = 10262)
  /\ (exists q,
         (Float.truediv 300 (PyInt 2976) = Ok q
          /\ whole_part_is (Float.mul 3508 q) 353
          /\ whole_part_is (Float.mul 2480 q) 249
          /\ valid_size 249 353)
         /\ exists img',
              resize_to_A4 (dpi_config (PyInt 2976)) (grey_page "page") = Ok img'
              /\ rows img' = 353 /\ cols img' = 249).
Proof.
  split; [|split; [|split]].
  - eexists.
    match goal with |- ?A /\ _ => assert (HA : A) by check_whole_parts end.
    split; [exact HA|]. destruct HA as (H1 & H2 & H3 & H4).
    destruct (resize_to_A4_truncates (dpi_config (PyInt 300)) (grey_page "page")
                _ 2480 3508 H1 H2 H3 H4 eq_refl) as (img' & H & Hr & Hc & _).
    exists img'. split; [exact H|]. split; [exact Hr | exact Hc].
  - eexists.
    match goal with |- ?A /\ _ => assert (HA : A) by check_whole_parts end.
    split; [exact HA|]. destruct HA as (H1 & H2 & H3 & H4).
    destruct (resize_to_A4_truncates (dpi_config (PyInt 150)) (grey_page "page")
                _ 4960 7016 H1 H2 H3 H4 eq_refl) as (img' & H & Hr & Hc & _).
    exists img'. split; [exact H|]. split; [exact Hr | exact Hc].
  - eexists.
    match goal with |- ?A /\ _ => assert (HA : A) by check_whole_parts end.
    split; [exact HA|]. destruct HA as (H1 & H2 & H3 & H4).
    destruct (resize_to_A4_truncates (dpi_config (PyFloat double_72_5))
                (grey_page "page") _ 10262 14515 H1 H2 H3 H4 eq_refl)
      as (img' & H & Hr & Hc & _).
    exists img'. split; [exact H|]. split; [exact Hr | exact Hc].
  - eexists.
    match goal with |- ?A /\ _ => assert (HA : A) by check_whole_parts end.
    split; [exact HA|]. destruct HA as (H1 & H2 & H3 & H4).
    destruct (resize_to_A4_truncates (dpi_config (PyInt 2976)) (grey_page "page")
                _ 249 353 H1 H2 H3 H4 eq_refl) as (img' & H & Hr & Hc & _).
    exists img'. split; [exact H|]. split; [exact Hr | exact Hc].
Defined.

(** ** Well-formed names *)

Lemma is_digit_not_special (c : ascii) :
  PyInt.is_digit c = true ->
  Ascii.eqb c "/" = false /\ Ascii.eqb c "." = false
  /\ Ascii.eqb c "-" = false /\ Ascii.eqb c "+" = false
  /\ Ascii.eqb c "_" = false /\ PyInt.is_space c = false.
Proof.
  intros H.
  repeat split;
    try (destruct (Ascii.eqb_spec c "/") as [->|]; [discriminate H | reflexivity]);
    try (destruct (Ascii.eqb_spec c ".") as [->|]; [discriminate H | reflexivity]);
    try (destruct (Ascii.eqb_spec c "-") as [->|]; [discriminate H | reflexivity]);
    try (destruct (Ascii.eqb_spec c "+") as [->|]; [discriminate H | reflexivity]);
    try (destruct (Ascii.eqb_spec c "_") as [->|]; [discriminate H | reflexivity]).
  unfold PyInt.is_digit, PyInt.is_space in *.
  apply andb_true_iff in H. destruct H as [H1 H2].
  apply Z.leb_le in H1. apply Z.leb_le in H2.
  repeat (apply orb_false_iff; split);
    try (apply andb_false_iff; right; apply Z.leb_gt; lia);
    apply Z.eqb_neq; lia.
Qed.

Lemma all_digits_no_slash (d : string) :
  all_digits d = true -> Str.has_slash d = false.
Proof.
  induction d as [|c r IH]; simpl; [reflexivity|].
  intros H. apply andb_true_iff in H. destruct H as [Hc Hr].
  destruct (is_digit_not_special c Hc) as (E & _). rewrite E. simpl. apply IH, Hr.
Qed.

Lemma before_dot_digits (d rest : string) :
  all_digits d = true -> Str.before_dot (d ++ "." ++ rest) = d.
Proof.
  change ("." ++ rest) with (String "." rest).
  induction d as [|c r IH]; simpl; [reflexivity|].
  intros H. apply andb_true_iff in H. destruct H as [Hc Hr].
  destruct (is_digit_not_special c Hc) as (_ & E & _). rewrite E.
  rewrite (IH Hr). reflexivity.
Qed.

(** Stripping the zeros keeps the digits and the number. *)
Lemma lstrip_zeros_digits (d : string) :
  all_digits d = true -> 0 < decimal_value d ->
  exists c r,
    Str.lstrip_zeros d = String c r
    /\ all_digits (String c r) = true
    /\ decimal_value (String c r) = decimal_value d.
Proof.
  induction d as [|c r IH]; intros Hd Hv.
  - unfold decimal_value in Hv. simpl in Hv. lia.
  - simpl. destruct (Ascii.eqb_spec c "0") as [->|Hn].
    + simpl in Hd. destruct (IH Hd) as (c' & r' & E1 & E2 & E3).
      * exact Hv.
      * exists c', r'. repeat split; assumption.
    + exists c, r. repeat split. exact Hd.
Qed.

Lemma digits_of_decimal (s : string) (acc : Z) :
  all_digits s = true ->
  PyInt.digits acc true (list_ascii_of_string s) = Some (decimal_value_from acc s).
Proof.
  revert acc. induction s as [|c r IH]; intros acc H; simpl; [reflexivity|].
  simpl in H. apply andb_true_iff in H. destruct H as [Hc Hr].
  rewrite Hc. apply IH, Hr.
Qed.

Lemma lstrip_digits (cs : list ascii) :
  Forall (fun c => PyInt.is_digit c = true) cs -> PyInt.lstrip cs = cs.
Proof.
  intros H. destruct H as [|c r Hc _]; simpl; [reflexivity|].
  destruct (is_digit_not_special c Hc) as (_ & _ & _ & _ & _ & E). rewrite E.
  reflexivity.
Qed.

Lemma all_digits_Forall (s : string) :
  all_digits s = true ->
  Forall (fun c => PyInt.is_digit c = true) (list_ascii_of_string s).
Proof.
  induction s as [|c r IH]; simpl; intros H; constructor;
    apply andb_true_iff in H; destruct H as [Hc Hr]; [exact Hc | apply IH, Hr].
Qed.

Lemma int_of_decimal (c : ascii) (r : string) :
  all_digits (String c r) = true ->
  PyInt.int (String c r) = Ok (decimal_value (String c r)).
Proof.
  intros H. pose proof (all_digits_Forall _ H) as HF.
  unfold PyInt.int, PyInt.parse, PyInt.strip.
  rewrite (lstrip_digits _ HF).
  rewrite lstrip_digits by (apply Forall_rev; exact HF).
  rewrite rev_involutive.
  simpl in H. apply andb_true_iff in H. destruct H as [Hc Hr].
  destruct (is_digit_not_special c Hc) as (_ & _ & E1 & E2 & _).
  cbn [list_ascii_of_string]. rewrite E1, E2.
  cbn [PyInt.digits]. rewrite Hc.
  rewrite (digits_of_decimal r _ Hr). reflexivity.
Qed.

(** X1.  A file of the device whose name is the prefix, decimal
    digits that are not all zero, a dot and an extension, in whatever
    directory, is parsed to the number the digits denote: the leading
    zeros do not count. *)
Theorem image_name_to_index_well_formed
        (cfg : config) (dir d ext : string) :
  Str.has_slash (IMAGE_PREFIX cfg) = false ->
  Str.has_slash ext = false ->
  all_digits d = true ->
  0 < decimal_value d ->
  image_name_to_index cfg (os_path_join dir (IMAGE_PREFIX cfg ++ d ++ "." ++ ext))
  = Ok (decimal_value d).
Proof.
  intros Hp He Hd Hv. unfold image_name_to_index.
  rewrite os_path_basename_join.
  - rewrite startswith_app, drop_app, (before_dot_digits d ext Hd).
    destruct (lstrip_zeros_digits d Hd Hv) as (c & r & E1 & E2 & E3).
    rewrite E1, <- E3. apply int_of_decimal. exact E2.
  - rewrite !has_slash_app, Hp, (all_digits_no_slash d Hd), He. reflexivity.
Qed.

Lemma image_name_to_index_well_formed_witness :
  Str.has_slash "IMG_" = false
  /\ Str.has_slash "jpg" = false
  /\ all_digits "000045" = true
  /\ 0 < decimal_value "000045"
  /\ image_name_to_index (scanner_config "pdf") "/media/scanner/IMG_000045.jpg" = Ok 45.
Proof.
  split; [reflexivity|]. split; [reflexivity|]. split; [reflexivity|].
  split; [reflexivity|].
  exact (image_name_to_index_well_formed (scanner_config "pdf") "/media/scanner"
           "000045" "jpg" eq_refl eq_refl eq_refl eq_refl).
Defined.

(** ** When construction succeeds *)

Lemma image_name_to_index_only_ValueError (cfg : config) (f : string) (e : exn) :
  image_name_to_index cfg f = Raise e -> e = ValueError.
Proof.
  unfold image_name_to_index, PyInt.int.
  destruct (PyInt.parse _); intros H; inversion H. reflexivity.
Qed.

Lemma mapM_raise {A B : Type} (f : A -> result B) (xs : list A) (e : exn) :
  mapM f xs = Raise e -> exists x, In x xs /\ f x = Raise e.
Proof.
  induction xs as [|x r IH]; simpl; [discriminate|].
  destruct (f x) as [y|e'] eqn:Ex; simpl.
  - destruct (mapM f r) as [ys|e'']; simpl; [discriminate|].
    intros H. inversion H. subst e''.
    destruct (IH eq_refl) as (x' & Hin & Hx'). exists x'. split; [right|]; assumption.
  - intros H. inversion H. subst e'. exists x. split; [left; reflexivity | exact Ex].
Qed.

Lemma mapM_ok_all {A B : Type} (f : A -> result B) (xs : list A) (ys : list B) :
  mapM f xs = Ok ys -> forall x, In x xs -> exists y, f x = Ok y /\ In y ys.
Proof.
  intros H x Hin. apply In_nth_error in Hin. destruct Hin as [i Hi].
  destruct (mapM_nth_error f xs ys i x H Hi) as (y & Hy & Hn).
  exists y. split; [exact Hy|]. apply (nth_error_In _ _ Hn).
Qed.

Lemma all_le_filter_nil (m : Z) (l : list Z) :
  Forall (fun z => z <= m) l -> filter (fun z => m <? z) l = [].
Proof.
  induction 1 as [|z l Hz _ IH]; simpl; [reflexivity|].
  replace (m <? z) with false by (symmetry; apply Z.ltb_ge; exact Hz). exact IH.
Qed.

Lemma filter_all {A : Type} (p : A -> bool) (l : list A) :
  Forall (fun x => p x = true) l -> filter p l = l.
Proof.
  induction 1 as [|x l Hx _ IH]; simpl; [reflexivity|]. rewrite Hx, IH. reflexivity.
Qed.

Section ConstructionFacts.

Context {AS : ArgSort}.
Variable W : world.

Lemma init_parses (cfg : config) :
  match mapM (image_name_to_index cfg) (scanned W cfg) with
  | Ok _ => exists h, init W cfg = Ok h
  | Raise e => init W cfg = Raise e
  end.
Proof.
  destruct (mapM (image_name_to_index cfg) (scanned W cfg)) as [ix|e] eqn:E.
  - apply init_total. intros f Hf.
    destruct (mapM_ok_all _ _ _ E f Hf) as (z & Hz & _). exists z. exact Hz.
  - unfold init, sort_names_by_indices.
    change (files (read_from_device W _)) with (scanned W cfg).
    change (CFG (read_from_device W _)) with cfg.
    rewrite E. reflexivity.
Qed.

(** The indices held are the scanned indices above the watermark, in
    some order. *)
Lemma init_indices (cfg : config) (h : ImageHandler) :
  init W cfg = Ok h ->
  exists ix ix',
    mapM (image_name_to_index cfg) (scanned W cfg) = Ok ix
    /\ Permutation ix' ix
    /\ indices h = filter (newer cfg) ix'
    /\ List.length (files h) = List.length (indices h).
Proof.
  intros Hinit.
  pose proof (init_consistent W cfg h Hinit) as Hc.
  destruct (consistent_length W h Hc) as [Hlen _].
  apply init_spec in Hinit.
  destruct Hinit as (ix & fs' & ix' & Hix & Hperm & _ & Hparsed & _ & _ & Hi & _).
  exists ix, ix'. repeat split; try assumption; [|lia].
  pose proof (mapM_length _ _ _ Hix) as L1.
  pose proof (mapM_length _ _ _ Hparsed) as L2.
  rewrite <- (map_snd_combine fs' ix') by lia.
  rewrite <- (map_snd_combine (scanned W cfg) ix) by lia.
  apply Permutation_map. exact Hperm.
Qed.

(** X2.  Construction succeeds exactly when every scanned name is
    parsed to an index; otherwise it raises [ValueError], for a scanned
    name that is not parsed.  Whether the files can be decoded plays no
    part. *)
Theorem init_succeeds_iff_names_parse (cfg : config) :
  ((exists h, init W cfg = Ok h)
   <-> (forall f, In f (scanned W cfg) ->
                  exists z, image_name_to_index cfg f = Ok z))
  /\ (forall e, init W cfg = Raise e ->
                e = ValueError
                /\ exists f, In f (scanned W cfg)
                             /\ image_name_to_index cfg f = Raise ValueError).
Proof.
  pose proof (init_parses cfg) as Hp.
  destruct (mapM (image_name_to_index cfg) (scanned W cfg)) as [ix|e0] eqn:E.
  - split; [split|].
    + intros _ f Hf. destruct (mapM_ok_all _ _ _ E f Hf) as (z & Hz & _).
      exists z. exact Hz.
    + intros _. exact Hp.
    + intros e He. destruct Hp as [h Hh]. rewrite Hh in He. discriminate.
  - destruct (mapM_raise _ _ _ E) as (f & Hf & Hfe).
    pose proof (image_name_to_index_only_ValueError _ _ _ Hfe) as ->.
    split; [split|].
    + intros [h Hh]. rewrite Hh in Hp. discriminate.
    + intros Hall. destruct (Hall f Hf) as [z Hz]. rewrite Hz in Hfe. discriminate.
    + intros e He. rewrite Hp in He. inversion He. subst e.
      split; [reflexivity|]. exists f. split; assumption.
Qed.

(** X3.  One scanned file whose base name is the prefix, zeros only,
    a dot and an extension makes the whole construction raise
    [ValueError]. *)
Theorem init_fails_on_all_zero_name
        (cfg : config) (f : string) (n : nat) (ext : string) :
  In f (scanned W cfg) ->
  os_path_basename f = IMAGE_PREFIX cfg ++ Str.replicate n "0" ++ "." ++ ext ->
  init W cfg = Raise ValueError.
Proof.
  intros Hf Hbase.
  assert (Hfail : image_name_to_index cfg f = Raise ValueError).
  { unfold image_name_to_index. rewrite Hbase.
    rewrite startswith_app, drop_app, before_dot_zeros, lstrip_zeros_replicate.
    reflexivity. }
  pose proof (init_parses cfg) as Hp.
  destruct (mapM (image_name_to_index cfg) (scanned W cfg)) as [ix|e0] eqn:E.
  - destruct (mapM_ok_all _ _ _ E f Hf) as (z & Hz & _).
    rewrite Hz in Hfail. discriminate.
  - destruct (mapM_raise _ _ _ E) as (g & _ & Hg).
    rewrite (image_name_to_index_only_ValueError _ _ _ Hg) in Hp. exact Hp.
Qed.

(** X4.  [len] of a constructed handler is the number of scanned
    names whose index is above the watermark; as many indices and images
    are held. *)
Theorem len_counts_newer (cfg : config) (h : ImageHandler) :
  constructed W cfg h ->
  exists ix,
    mapM (image_name_to_index cfg) (scanned W cfg) = Ok ix
    /\ len h = List.length (filter (fun i => LAST_IMAGE_IDX cfg <? i) ix)
    /\ List.length (indices h) = len h
    /\ List.length (images h) = len h
    /\ (len h <= List.length (scanned W cfg))%nat.
Proof.
  intros [_ Hinit].
  pose proof (init_consistent W cfg h Hinit) as Hc.
  destruct (consistent_length W h Hc) as [L1 L2].
  destruct (init_indices cfg h Hinit) as (ix & ix' & Hix & Hperm & Hi & Hlen).
  assert (Hn : len h = List.length (filter (newer cfg) ix)).
  { unfold len. rewrite Hlen, Hi.
    apply Permutation_length, Permutation_filter. exact Hperm. }
  exists ix. repeat split; try assumption.
  rewrite Hn. rewrite <- (mapM_length _ _ _ Hix). apply filter_length_le.
Qed.

(** X5.  When every scanned index is above the watermark, nothing
    is dropped: the files held are the scanned files, reordered. *)
Theorem init_keeps_all_above_watermark (cfg : config) (h : ImageHandler) :
  constructed W cfg h ->
  (forall f z, In f (scanned W cfg) -> image_name_to_index cfg f = Ok z ->
               LAST_IMAGE_IDX cfg < z) ->
  Permutation (files h) (scanned W cfg)
  /\ len h = List.length (scanned W cfg).
Proof.
  intros [_ Hinit] Habove.
  pose proof (init_consistent W cfg h Hinit) as Hc.
  destruct (consistent_length W h Hc) as [L1 _].
  apply init_spec in Hinit.
  destruct Hinit as (ix & fs' & ix' & Hix & Hperm & _ & Hparsed & Hpairs & _).
  pose proof (mapM_length _ _ _ Hix) as Lix.
  assert (Hall : Forall (fun p => newer cfg (snd p) = true)
                        (combine (scanned W cfg) ix)).
  { rewrite Forall_forall. intros [f z] Hin.
    apply In_nth_error in Hin. destruct Hin as [i Hi].
    assert (Hfi : nth_error (scanned W cfg) i = Some f).
    { pose proof (map_nth_error fst i _ Hi) as Hm.
      rewrite map_fst_combine in Hm by lia. exact Hm. }
    assert (Hzi : nth_error ix i = Some z).
    { pose proof (map_nth_error snd i _ Hi) as Hm.
      rewrite map_snd_combine in Hm by lia. exact Hm. }
    destruct (mapM_nth_error _ _ _ i f Hix Hfi) as (z' & Hz' & Hn).
    rewrite Hzi in Hn. inversion Hn. subst z'.
    simpl. apply Z.ltb_lt. apply (Habove f z); [|exact Hz'].
    apply (nth_error_In _ _ Hfi). }
  assert (Hall' : Forall (fun p => newer cfg (snd p) = true) (combine fs' ix')).
  { apply (Permutation_Forall (Permutation_sym Hperm)). exact Hall. }
  rewrite (filter_all _ _ Hall') in Hpairs.
  assert (Hfiles : Permutation (files h) (scanned W cfg)).
  { rewrite <- (map_fst_combine (files h) (indices h)) by lia.
    rewrite <- (map_fst_combine (scanned W cfg) ix) by lia.
    rewrite Hpairs. apply Permutation_map. exact Hperm. }
  split; [exact Hfiles|]. unfold len. apply Permutation_length. exact Hfiles.
Qed.

End ConstructionFacts.

(** ** Order and watermark *)

(** Two lists of pairs with the same pairs, both in key order, are the
    same list when no key occurs twice. *)
Lemma sorted_pairs_unique {A : Type} (l1 l2 : list (A * Z)) :
  Permutation l1 l2 ->
  StronglySorted Z.le (map snd l1) ->
  StronglySorted Z.le (map snd l2) ->
  NoDup (map snd l1) ->
  l1 = l2.
Proof.
  revert l2. induction l1 as [|a r1 IH]; intros l2 Hp S1 S2 Hnd.
  - apply Permutation_nil in Hp. symmetry. exact Hp.
  - destruct l2 as [|b r2].
    { apply Permutation_sym, Permutation_nil in Hp. discriminate. }
    simpl in S1, S2, Hnd.
    apply StronglySorted_inv in S1. destruct S1 as [S1 Ha].
    apply StronglySorted_inv in S2. destruct S2 as [S2 Hb].
    inversion Hnd as [|x l Hnotin Hnd']. subst x l.
    assert (Hab : a = b).
    { assert (Hbin : In b (a :: r1))
        by (apply (Permutation_in _ (Permutation_sym Hp)); left; reflexivity).
      destruct Hbin as [E|Hbin]; [exact E|].
      assert (Hain : In a (b :: r2))
        by (apply (Permutation_in _ Hp); left; reflexivity).
      destruct Hain as [E|Hain]; [symmetry; exact E|].
      exfalso. apply Hnotin.
      rewrite Forall_forall in Ha, Hb.
      assert (snd a <= snd b) by (apply Ha, in_map, Hbin).
      assert (snd b <= snd a) by (apply Hb, in_map, Hain).
      replace (snd a) with (snd b) by lia. apply in_map. exact Hbin. }
    subst b. f_equal. apply IH; try assumption.
    apply (Permutation_cons_inv Hp).
Qed.

Lemma combine_eq_inv {A B : Type} (a a' : list A) (b b' : list B) :
  List.length a = List.length b -> List.length a' = List.length b' ->
  combine a b = combine a' b' -> a = a' /\ b = b'.
Proof.
  intros L L' H. split.
  - rewrite <- (map_fst_combine a b L), <- (map_fst_combine a' b' L'), H. reflexivity.
  - rewrite <- (map_snd_combine a b L), <- (map_snd_combine a' b' L'), H. reflexivity.
Qed.

Lemma init_fields {AS : ArgSort} (W : world) (cfg : config) (h : ImageHandler) :
  init W cfg = Ok h ->
  CFG h = cfg /\ cnt h = 0%nat
  /\ flag h = (if READ_GRAYSCALE cfg then IMREAD_GRAYSCALE else IMREAD_COLOR).
Proof.
  intros Hinit. pose proof Hinit as Hs. apply init_spec in Hs.
  destruct Hs as (_ & _ & _ & _ & _ & _ & _ & _ & _ & _ & _ & Hcfg & Hcnt).
  split; [exact Hcfg|]. split; [exact Hcnt|].
  unfold init in Hinit.
  match type of Hinit with
  | context [sort_names_by_indices ?x] => set (h0 := x) in Hinit
  end.
  destruct (sort_names_by_indices h0) as [h1|e] eqn:H1; simpl in Hinit; [|discriminate].
  apply sort_names_by_indices_spec in H1.
  destruct H1 as (ix & _ & _ & _ & Hparsed & _ & Hflag & _).
  pose proof (mapM_length _ _ _ Hparsed) as Hlen.
  rewrite discard_old_spec in Hinit by lia. simpl in Hinit.
  inversion Hinit. simpl. exact Hflag.
Qed.

Section OrderFacts.

Variable W : world.

(** X6.  When the indices held are all different, the constructed
    handler does not depend on how [argsort] orders equal keys: any two
    sorts build the same handler. *)
Theorem init_independent_of_argsort
        (AS1 AS2 : ArgSort) (cfg : config) (h1 h2 : ImageHandler) :
  constructed (AS := AS1) W cfg h1 ->
  constructed (AS := AS2) W cfg h2 ->
  NoDup (indices h1) ->
  h1 = h2.
Proof.
  intros [_ H1] [_ H2] Hnd.
  pose proof (init_consistent (AS := AS1) W cfg h1 H1) as C1.
  pose proof (init_consistent (AS := AS2) W cfg h2 H2) as C2.
  destruct (consistent_length W h1 C1) as [L1 _].
  destruct (consistent_length W h2 C2) as [L2 _].
  destruct (init_fields W cfg h1 H1) as (Hc1 & Hn1 & Hf1).
  destruct (init_fields W cfg h2 H2) as (Hc2 & Hn2 & Hf2).
  pose proof (init_spec (AS := AS1) W cfg h1 H1)
    as (ix1 & fs1 & is1 & Hix1 & Hp1 & _ & _ & Hpairs1 & _).
  pose proof (init_spec (AS := AS2) W cfg h2 H2)
    as (ix2 & fs2 & is2 & Hix2 & Hp2 & _ & _ & Hpairs2 & _).
  rewrite Hix1 in Hix2. inversion Hix2. subst ix2.
  assert (Hperm : Permutation (combine (files h1) (indices h1))
                              (combine (files h2) (indices h2))).
  { rewrite Hpairs1, Hpairs2. apply Permutation_filter.
    apply (Permutation_trans Hp1 (Permutation_sym Hp2)). }
  assert (Hsame : combine (files h1) (indices h1) = combine (files h2) (indices h2)).
  { apply sorted_pairs_unique; [exact Hperm| | |];
      rewrite map_snd_combine by lia; try exact Hnd;
      (apply Sorted_StronglySorted; [intros x y z; apply Z.le_trans|]).
    - apply (indices_sorted W h1 C1).
    - apply (indices_sorted W h2 C2). }
  apply combine_eq_inv in Hsame; try lia. destruct Hsame as [Hfiles Hidx].
  pose proof (images_of_files W h1 C1) as I1.
  pose proof (images_of_files W h2 C2) as I2.
  destruct h1, h2. simpl in *. subst. reflexivity.
Qed.

End OrderFacts.

Section WatermarkFacts.

Context {AS : ArgSort}.
Variable W : world.

(** X7.  Moving the watermark to what [max] returned and building a
    handler again on the same device gives a handler that holds
    nothing. *)
Theorem init_after_max_is_empty
        (cfg : config) (h h' : ImageHandler) (m : Z) :
  constructed W cfg h ->
  files h <> [] ->
  max h = Ok m ->
  constructed W (with_watermark cfg m) h' ->
  files h' = [] /\ len h' = 0%nat /\ max h' = Ok (-1).
Proof.
  intros [_ Hinit] Hne Hmax [_ Hinit'].
  destruct (init_indices W cfg h Hinit) as (ix & ix1 & Hix & Hperm1 & Hi1 & Hlen1).
  destruct (init_indices W (with_watermark cfg m) h' Hinit')
    as (ix0 & ix2 & Hix0 & Hperm2 & Hi2 & Hlen2).
  change (mapM (image_name_to_index (with_watermark cfg m))
               (scanned W (with_watermark cfg m)))
    with (mapM (image_name_to_index cfg) (scanned W cfg)) in Hix0.
  rewrite Hix in Hix0. inversion Hix0. subst ix0.
  assert (Hm : In m (indices h) /\ Forall (fun i => i <= m) (indices h)).
  { unfold max in Hmax. destruct (files h) as [|f fs] eqn:Ef; [contradiction|].
    simpl in Hmax. destruct (py_max_spec (indices h)) as (m' & Hm' & Hin & Hall).
    - intros E. rewrite E in Hlen1. discriminate.
    - rewrite Hm' in Hmax. inversion Hmax. subst m'. split; assumption. }
  destruct Hm as [Hin Hall].
  assert (Hgt : LAST_IMAGE_IDX cfg < m).
  { rewrite Hi1 in Hin. apply filter_In in Hin. destruct Hin as [_ Hn].
    apply Z.ltb_lt. exact Hn. }
  assert (Hle : Forall (fun z => z <= m) ix2).
  { rewrite Forall_forall in *. intros z Hz.
    apply (Permutation_in _ Hperm2) in Hz.
    apply (Permutation_in _ (Permutation_sym Hperm1)) in Hz.
    destruct (Z.ltb_spec (LAST_IMAGE_IDX cfg) z) as [Hlt|Hge]; [|lia].
    apply Hall. rewrite Hi1. apply filter_In. split; [exact Hz|].
    apply Z.ltb_lt. exact Hlt. }
  assert (Hidx : indices h' = []).
  { rewrite Hi2. unfold newer. simpl. apply all_le_filter_nil. exact Hle. }
  assert (Hfiles : files h' = []).
  { rewrite Hidx in Hlen2. destruct (files h'); [reflexivity | discriminate]. }
  split; [exact Hfiles|]. unfold len, max. rewrite Hfiles. split; reflexivity.
Qed.

End WatermarkFacts.

Lemma init_fails_on_all_zero_name_witness :
  In "/media/scanner/IMG_000000.jpg"
     (scanned scanner_world_with_page_0 (scanner_config "pdf"))
  /\ os_path_basename "/media/scanner/IMG_000000.jpg"
     = "IMG_" ++ Str.replicate 6 "0" ++ "." ++ "jpg"
  /\ init (AS := merge_ArgSort) scanner_world_with_page_0 (scanner_config "pdf")
     = Raise ValueError.
Proof.
  assert (Hin : In "/media/scanner/IMG_000000.jpg"
                   (scanned scanner_world_with_page_0 (scanner_config "pdf")))
    by (right; left; reflexivity).
  split; [exact Hin|]. split; [reflexivity|].
  exact (init_fails_on_all_zero_name (AS := merge_ArgSort) scanner_world_with_page_0
           (scanner_config "pdf") "/media/scanner/IMG_000000.jpg" 6 "jpg"
           Hin eq_refl).
Defined.

Lemma len_counts_newer_witness :
  constructed (AS := merge_ArgSort) scanner_world (scanner_config "pdf")
              (scanner_handler "pdf")
  /\ exists ix,
       mapM (image_name_to_index (scanner_config "pdf"))
            (scanned scanner_world (scanner_config "pdf")) = Ok ix
       /\ len (scanner_handler "pdf")
          = List.length (filter (fun i => 3 <? i) ix).
Proof.
  split; [exact (scanner_handler_constructed "pdf")|].
  destruct (len_counts_newer (AS := merge_ArgSort) scanner_world (scanner_config "pdf")
              (scanner_handler "pdf") (scanner_handler_constructed "pdf"))
    as (ix & H1 & H2 & _).
  exists ix. split; [exact H1 | exact H2].
Defined.

Lemma scanner_handler_at_constructed :
  constructed (AS := merge_ArgSort) scanner_world
              (with_watermark (scanner_config "pdf") (-1))
              (scanner_handler_at (-1)
                 ["/media/scanner/IMG_000003.jpg"; "/media/scanner/IMG_000007.jpg";
                  "/media/scanner/IMG_000012.jpg"] [3; 7; 12])
  /\ constructed (AS := merge_ArgSort) scanner_world
                 (with_watermark (scanner_config "pdf") 12)
                 (scanner_handler_at 12 [] []).
Proof. split; split; vm_compute; reflexivity. Qed.

Lemma init_keeps_all_above_watermark_witness :
  constructed (AS := merge_ArgSort) scanner_world
              (with_watermark (scanner_config "pdf") (-1))
              (scanner_handler_at (-1)
                 ["/media/scanner/IMG_000003.jpg"; "/media/scanner/IMG_000007.jpg";
                  "/media/scanner/IMG_000012.jpg"] [3; 7; 12])
  /\ (forall f z,
        In f (scanned scanner_world (with_watermark (scanner_config "pdf") (-1))) ->
        image_name_to_index (with_watermark (scanner_config "pdf") (-1)) f = Ok z ->
        -1 < z)
  /\ Permutation
       ["/media/scanner/IMG_000003.jpg"; "/media/scanner/IMG_000007.jpg";
        "/media/scanner/IMG_000012.jpg"]
       ["/media/scanner/IMG_000012.jpg"; "/media/scanner/IMG_000003.jpg";
        "/media/scanner/IMG_000007.jpg"].
Proof.
  assert (Habove : forall f z,
            In f (scanned scanner_world (with_watermark (scanner_config "pdf") (-1))) ->
            image_name_to_index (with_watermark (scanner_config "pdf") (-1)) f = Ok z ->
            -1 < z).
  { intros f z Hin Hz.
    destruct Hin as [<-|[<-|[<-|[]]]]; vm_compute in Hz; inversion Hz; reflexivity. }
  split; [exact (proj1 scanner_handler_at_constructed)|].
  split; [exact Habove|].
  exact (proj1 (init_keeps_all_above_watermark (AS := merge_ArgSort) scanner_world
                  (with_watermark (scanner_config "pdf") (-1)) _
                  (proj1 scanner_handler_at_constructed) Habove)).
Defined.

Lemma scanner_with_copy_constructed :
  constructed (AS := merge_ArgSort) scanner_world_with_copy (scanner_config "pdf")
              (scanner_handler "pdf")
  /\ constructed (AS := reverse_ArgSort) scanner_world_with_copy
                 (scanner_config "pdf") (scanner_handler "pdf").
Proof. split; split; vm_compute; reflexivity. Qed.

Lemma init_independent_of_argsort_witness :
  init (AS := merge_ArgSort) scanner_world_with_copy
       (with_watermark (scanner_config "pdf") 2)
  <> init (AS := reverse_ArgSort) scanner_world_with_copy
          (with_watermark (scanner_config "pdf") 2)
  /\ constructed (AS := merge_ArgSort) scanner_world_with_copy
                 (scanner_config "pdf") (scanner_handler "pdf")
  /\ constructed (AS := reverse_ArgSort) scanner_world_with_copy
                 (scanner_config "pdf") (scanner_handler "pdf")
  /\ NoDup (indices (scanner_handler "pdf"))
  /\ init (AS := merge_ArgSort) scanner_world_with_copy (scanner_config "pdf")
     = init (AS := reverse_ArgSort) scanner_world_with_copy (scanner_config "pdf").
Proof.
  assert (Hnd : NoDup (indices (scanner_handler "pdf"))).
  { simpl. constructor; [|constructor; [|constructor]].
    - intros [H|[]]. discriminate.
    - intros []. }
  split; [vm_compute; discriminate|].
  split; [exact (proj1 scanner_with_copy_constructed)|].
  split; [exact (proj2 scanner_with_copy_constructed)|].
  split; [exact Hnd|].
  rewrite (proj2 (proj1 scanner_with_copy_constructed)).
  rewrite (proj2 (proj2 scanner_with_copy_constructed)).
  exact (f_equal Ok
           (init_independent_of_argsort scanner_world_with_copy
              merge_ArgSort reverse_ArgSort (scanner_config "pdf") _ _
              (proj1 scanner_with_copy_constructed)
              (proj2 scanner_with_copy_constructed) Hnd)).
Defined.

Lemma init_after_max_is_empty_witness :
  constructed (AS := merge_ArgSort) scanner_world (scanner_config "pdf")
              (scanner_handler "pdf")
  /\ files (scanner_handler "pdf") <> []
  /\ max (scanner_handler "pdf") = Ok 12
  /\ constructed (AS := merge_ArgSort) scanner_world
                 (with_watermark (scanner_config "pdf") 12)
                 (scanner_handler_at 12 [] [])
  /\ len (scanner_handler_at 12 [] []) = 0%nat.
Proof.
  assert (Hne : files (scanner_handler "pdf") <> []) by discriminate.
  split; [exact (scanner_handler_constructed "pdf")|].
  split; [exact Hne|]. split; [reflexivity|].
  split; [exact (proj2 scanner_handler_at_constructed)|].
  exact (proj1 (proj2 (init_after_max_is_empty (AS := merge_ArgSort) scanner_world
                         (scanner_config "pdf") (scanner_handler "pdf")
                         (scanner_handler_at 12 [] []) 12
                         (scanner_handler_constructed "pdf") Hne eq_refl
                         (proj2 scanner_handler_at_constructed)))).
Defined.

(** ** What [save] does to the images *)

Lemma cv2_resize_ok (img : image) (w h : Z) :
  nonempty img = true -> valid_size w h ->
  cv2_resize img (w, h) = Ok (resized w h img).
Proof.
  intros Hne [[Hw1 Hw2] [Hh1 Hh2]]. unfold cv2_resize. rewrite Hne.
  replace (0 <? w) with true by (symmetry; apply Z.ltb_lt; exact Hw1).
  replace (w <=? INT_MAX) with true by (symmetry; apply Z.leb_le; exact Hw2).
  replace (0 <? h) with true by (symmetry; apply Z.ltb_lt; exact Hh1).
  replace (h <=? INT_MAX) with true by (symmetry; apply Z.leb_le; exact Hh2).
  reflexivity.
Qed.

Lemma resize_to_A4_ok (cfg : config) (img : image) (w h : Z) :
  A4_size cfg = Ok (w, h) -> valid_size w h -> nonempty img = true ->
  resize_to_A4 cfg img = Ok (resized w h img).
Proof.
  intros Hs Hv Hne. unfold resize_to_A4. rewrite Hs. simpl.
  apply cv2_resize_ok; assumption.
Qed.

Lemma cv2_cvtColor_ok (W : world) (img : image) :
  is_colour img = true -> cv2_cvtColor_BGR2RGB W img = Ok (swapped img).
Proof.
  unfold is_colour, cv2_cvtColor_BGR2RGB.
  destruct (channels img) as [c|]; [|discriminate].
  intros H. rewrite H. reflexivity.
Qed.

Lemma nonempty_swapped (img : image) : nonempty (swapped img) = nonempty img.
Proof. reflexivity. Qed.

Lemma mapM_Forall {A B : Type} (f : A -> result B) (g : A -> B) (xs : list A) :
  Forall (fun x => f x = Ok (g x)) xs -> mapM f xs = Ok (map g xs).
Proof.
  intros H. apply mapM_map. apply Forall_forall. exact H.
Qed.

Lemma prepared_of_grey_first
      (W : world) (cfg : config) (first : image) (rest : list image) :
  channels first = None ->
  prepared W cfg (first :: rest) = mapM (resize_to_A4 cfg) (first :: rest).
Proof.
  intros Hgrey. unfold prepared.
  cbv beta iota delta [bind]. unfold ndim. rewrite Hgrey. reflexivity.
Qed.

(** X8.  When the first image given has two dimensions, [save]
    swaps the channels of no image: every image, also one of three
    channels further down the list, is only resized, all to the same
    size. *)
Theorem prepared_grey_first_swaps_nothing
        (W : world) (cfg : config) (first : image) (rest : list image) (w h : Z) :
  channels first = None ->
  Forall (fun img => nonempty img = true) (first :: rest) ->
  A4_size cfg = Ok (w, h) ->
  valid_size w h ->
  prepared W cfg (first :: rest) = Ok (map (resized w h) (first :: rest)).
Proof.
  intros Hgrey Hne Hsize Hvalid.
  rewrite (prepared_of_grey_first W cfg first rest Hgrey).
  apply mapM_Forall. rewrite Forall_forall in *. intros img Hin.
  apply resize_to_A4_ok; auto.
Qed.

(** X9.  When every image given has 3 or 4 channels, [save] swaps
    the channels of each from BGR to RGB and then resizes it: what is
    written has 3 channels. *)
Theorem prepared_colour_swaps_all
        (W : world) (cfg : config) (first : image) (rest : list image) (w h : Z) :
  Forall (fun img => is_colour img = true) (first :: rest) ->
  A4_size cfg = Ok (w, h) ->
  valid_size w h ->
  prepared W cfg (first :: rest)
  = Ok (map (fun img => resized w h (swapped img)) (first :: rest))
  /\ Forall (fun img => channels img = Some 3)
            (map (fun img => resized w h (swapped img)) (first :: rest)).
Proof.
  intros Hcol Hsize Hvalid. split.
  - unfold prepared. cbv beta iota delta [bind].
    assert (Hfirst : (ndim first =? 3) = true).
    { inversion Hcol as [|x l Hx _]. subst. unfold is_colour in Hx. unfold ndim.
      destruct (channels first); [reflexivity | discriminate]. }
    rewrite Hfirst.
    rewrite (mapM_Forall (cv2_cvtColor_BGR2RGB W) swapped).
    + rewrite (mapM_Forall (resize_to_A4 cfg) (resized w h)).
      * rewrite map_map. reflexivity.
      * rewrite Forall_forall in *. intros img Hin.
        apply in_map_iff in Hin. destruct Hin as (img0 & <- & Hin0).
        apply resize_to_A4_ok; try assumption.
        rewrite nonempty_swapped. specialize (Hcol img0 Hin0).
        unfold is_colour in Hcol. destruct (channels img0); [|discriminate].
        apply andb_true_iff in Hcol. tauto.
    + rewrite Forall_forall in *. intros img Hin. apply cv2_cvtColor_ok. auto.
  - rewrite Forall_forall. intros img Hin.
    apply in_map_iff in Hin. destruct Hin as (img0 & <- & _). reflexivity.
Qed.


(** ** What [save] leaves on disk *)

Section SaveEffects.

Variable W : world.

Lemma save_as_images_unchecked (h : ImageHandler) (imgs : list image) (i : nat) :
  (forall p img, cv2_imwrite W p img <> ImwriteError) ->
  (i + List.length imgs <= List.length (files h))%nat ->
  snd (save_as_images W h i imgs) = Ok tt
  /\ image_files (fst (save_as_images W h i imgs))
     = filter (is_written W)
         (combine (map (fun f => os_path_join (SAVE_PATH (CFG h)) (os_path_basename f))
                       (firstn (List.length imgs) (skipn i (files h))))
                  imgs).
Proof.
  intros Hw. revert i. induction imgs as [|img r IH]; intros i Hlen.
  - split; reflexivity.
  - simpl in Hlen.
    destruct (nth_error (files h) i) as [f|] eqn:Ef;
      [|apply nth_error_None in Ef; lia].
    rewrite (skipn_nth_error _ _ _ Ef).
    cbn [save_as_images]. rewrite Ef, io_bind_lift.
    destruct (IH (S i)) as [IH1 IH2]; [lia|].
    cbn [List.length firstn map combine filter]. unfold is_written at 1.
    cbn [fst snd]. unfold imwrite. specialize (Hw (os_path_join (SAVE_PATH (CFG h))
                                                    (os_path_basename f)) img).
    destruct (cv2_imwrite W (os_path_join (SAVE_PATH (CFG h)) (os_path_basename f)) img);
      [| |contradiction]; unfold io_bind at 1;
      destruct (save_as_images W h (S i) r) as [t res]; simpl in *;
      rewrite IH1, IH2; split; reflexivity.
Qed.

Lemma save_as_images_no_directory (h : ImageHandler) (imgs : list image) (i : nat) :
  dirs_created (fst (save_as_images W h i imgs)) = [].
Proof.
  revert i. induction imgs as [|img r IH]; intros i; [reflexivity|].
  cbn [save_as_images]. rewrite io_bind_lift.
  destruct (nth_error (files h) i) as [f|]; [|reflexivity].
  unfold imwrite.
  specialize (IH (S i)).
  destruct (cv2_imwrite W _ img); unfold io_bind at 1;
    try reflexivity;
    destruct (save_as_images W h (S i) r) as [t res]; simpl in *; exact IH.
Qed.

Lemma save_as_pdf_no_directory (h : ImageHandler) (imgs : list image) :
  dirs_created (fst (save_as_pdf W h imgs)) = [].
Proof.
  unfold save_as_pdf. rewrite io_bind_lift.
  destruct (mapM Image_fromarray imgs) as [[|root pages]|e]; try reflexivity.
  destruct (pdf_save W _ _); reflexivity.
Qed.

(** [save] past the directory: the images are prepared, then written in
    one of the two ways. *)
Lemma save_unfold (h : ImageHandler) (imgs : list image) :
  save W h imgs
  = if (List.length (files h) =? 0)%nat then io_ret tt
    else
      _ <~ (if os_path_exists W (SAVE_PATH (CFG h)) then io_ret tt
            else mkdir W (SAVE_PATH (CFG h))) ;;
      match prepared W (CFG h) imgs with
      | Ok imgs' =>
          if Str.mem (Str.lower (SAVE_FORMAT (CFG h))) IMAGE_FORMATS
          then save_as_images W h 0%nat imgs'
          else save_as_pdf W h imgs'
      | Raise e => ([], Raise e)
      end.
Proof.
  unfold save. destruct (List.length (files h) =? 0)%nat; [reflexivity|].
  f_equal.
  assert (Hbody :
    (first <~ lift match imgs with
                   | [] => Raise IndexError
                   | img :: _ => Ok img
                   end ;;
     imgs0 <~ lift (if ndim first =? 3
                    then mapM (cv2_cvtColor_BGR2RGB W) imgs
                    else Ok imgs) ;;
     imgs1 <~ lift (mapM (resize_to_A4 (CFG h)) imgs0) ;;
     (if Str.mem (Str.lower (SAVE_FORMAT (CFG h))) IMAGE_FORMATS
      then save_as_images W h 0%nat imgs1
      else save_as_pdf W h imgs1))
    = match prepared W (CFG h) imgs with
      | Ok imgs' =>
          if Str.mem (Str.lower (SAVE_FORMAT (CFG h))) IMAGE_FORMATS
          then save_as_images W h 0%nat imgs'
          else save_as_pdf W h imgs'
      | Raise e => ([], Raise e)
      end).
  { unfold prepared. rewrite io_bind_lift.
    destruct imgs as [|img r]; [reflexivity|].
    cbv beta iota delta [bind]. rewrite io_bind_lift.
    destruct (if ndim img =? 3 then mapM (cv2_cvtColor_BGR2RGB W) (img :: r)
              else Ok (img :: r)) as [imgs0|e]; [|reflexivity].
    rewrite io_bind_lift. reflexivity. }
  rewrite <- Hbody. reflexivity.
Qed.

(** X11.  [save] does not look at what [cv2.imwrite] returns: as
    long as no write raises, the call returns normally, and the image
    files left on disk are those, among the positional pairs of path and
    prepared image, that [cv2.imwrite] did write. *)
Theorem save_ignores_imwrite_result
        (h : ImageHandler) (imgs imgs' : list image) :
  files h <> [] ->
  Str.mem (Str.lower (SAVE_FORMAT (CFG h))) IMAGE_FORMATS = true ->
  directory_ready W h ->
  (forall p img, cv2_imwrite W p img <> ImwriteError) ->
  prepared W (CFG h) imgs = Ok imgs' ->
  (List.length imgs <= List.length (files h))%nat ->
  snd (save W h imgs) = Ok tt
  /\ image_files (fst (save W h imgs))
     = filter (is_written W)
         (combine (map (fun f => os_path_join (SAVE_PATH (CFG h)) (os_path_basename f))
                       (firstn (List.length imgs) (files h)))
                  imgs').
Proof.
  intros Hf Hfmt Hdir Hw Hprep Hlen.
  pose proof (prepared_length _ _ _ _ Hprep) as Hlen'.
  destruct (save_as_images_unchecked h imgs' 0 Hw) as [H1 H2]; [simpl; lia|].
  rewrite (save_steps W h imgs Hf Hdir), Hprep, Hfmt. cbn [fst snd].
  split; [exact H1|].
  rewrite image_files_app, (proj2 (files_written_ensure_directory W h)).
  cbn [app]. rewrite H2. cbn [skipn]. rewrite Hlen'. reflexivity.
Qed.

(** X12.  When the output directory is missing and cannot be
    created, [save] raises the error of [os.mkdir] before it looks at the
    images, and leaves nothing on disk. *)
Theorem save_propagates_mkdir_error
        (h : ImageHandler) (imgs : list image) (e : exn) :
  files h <> [] ->
  os_path_exists W (SAVE_PATH (CFG h)) = false ->
  os_mkdir W (SAVE_PATH (CFG h)) = Some e ->
  save W h imgs = ([], Raise e).
Proof.
  intros Hf Hex Hmk. rewrite save_unfold.
  destruct (files h) as [|f fs]; [contradiction|].
  cbn [List.length Nat.eqb]. rewrite Hex. unfold mkdir. rewrite Hmk. reflexivity.
Qed.

(** X13.  Whatever the images and whatever happens later in the
    call, the only directory [save] ever creates is the output directory,
    once, and only when files are held, the path does not exist and
    [os.mkdir] succeeds. *)
Theorem save_creates_only_the_output_directory
        (h : ImageHandler) (imgs : list image) :
  dirs_created (fst (save W h imgs))
  = match files h with
    | [] => []
    | _ :: _ =>
        if os_path_exists W (SAVE_PATH (CFG h)) then []
        else match os_mkdir W (SAVE_PATH (CFG h)) with
             | None => [SAVE_PATH (CFG h)]
             | Some _ => []
             end
    end.
Proof.
  rewrite save_unfold.
  destruct (files h) as [|f fs] eqn:Ef; [reflexivity|].
  cbn [List.length Nat.eqb].
  set (body := match prepared W (CFG h) imgs with
               | Ok imgs' =>
                   if Str.mem (Str.lower (SAVE_FORMAT (CFG h))) IMAGE_FORMATS
                   then save_as_images W h 0%nat imgs'
                   else save_as_pdf W h imgs'
               | Raise e => ([], Raise e)
               end).
  assert (Hbody : dirs_created (fst body) = []).
  { unfold body. destruct (prepared W (CFG h) imgs) as [imgs'|e]; [|reflexivity].
    destruct (Str.mem _ _);
      [apply save_as_images_no_directory | apply save_as_pdf_no_directory]. }
  destruct (os_path_exists W (SAVE_PATH (CFG h))).
  - unfold io_ret, io_bind. destruct body as [t r]. simpl in *. exact Hbody.
  - unfold mkdir. destruct (os_mkdir W (SAVE_PATH (CFG h))); [reflexivity|].
    unfold io_bind. destruct body as [t r]. simpl in *. rewrite Hbody. reflexivity.
Qed.

(** X14.  Given more images than files are held, [save] in an image
    format writes one file for each file held, under its base name, and
    then raises [IndexError]: the files written before the raise stay. *)
Theorem save_of_too_many_images_raises
        (h : ImageHandler) (imgs imgs' : list image) :
  files h <> [] ->
  Str.mem (Str.lower (SAVE_FORMAT (CFG h))) IMAGE_FORMATS = true ->
  directory_ready W h ->
  (forall p img, cv2_imwrite W p img = Written) ->
  prepared W (CFG h) imgs = Ok imgs' ->
  (List.length (files h) < List.length imgs)%nat ->
  snd (save W h imgs) = Raise IndexError
  /\ image_files (fst (save W h imgs))
     = combine (map (fun f => os_path_join (SAVE_PATH (CFG h)) (os_path_basename f))
                    (files h))
               (firstn (List.length (files h)) imgs')
  /\ List.length (image_files (fst (save W h imgs))) = List.length (files h).
Proof.
  intros Hf Hfmt Hdir Hw Hprep Hlen.
  pose proof (prepared_length _ _ _ _ Hprep) as Hlen'.
  assert (Hfiles : image_files (fst (save W h imgs))
                   = combine (map (fun f => os_path_join (SAVE_PATH (CFG h))
                                                         (os_path_basename f))
                                  (files h))
                             (firstn (List.length (files h)) imgs')).
  { rewrite (save_steps W h imgs Hf Hdir), Hprep, Hfmt.
    rewrite (save_as_images_out_of_files W h imgs' 0 Hw) by (simpl; lia).
    cbn [fst skipn].
    rewrite image_files_app, (proj2 (files_written_ensure_directory W h)).
    cbn [app]. rewrite image_files_map.
    rewrite (map_combine_fst
               (fun f => os_path_join (SAVE_PATH (CFG h)) (os_path_basename f))).
    rewrite <- (length_map (fun f => os_path_join (SAVE_PATH (CFG h))
                                                  (os_path_basename f)) (files h)).
    apply combine_firstn_l. }
  split; [|split].
  - rewrite (save_steps W h imgs Hf Hdir), Hprep, Hfmt.
    rewrite (save_as_images_out_of_files W h imgs' 0 Hw) by (simpl; lia).
    reflexivity.
  - exact Hfiles.
  - rewrite Hfiles, length_combine, length_map, length_firstn. lia.
Qed.

End SaveEffects.

(** ** The name of the document *)

Lemma str_app_cancel_l (a x y : string) : (a ++ x)%string = (a ++ y)%string -> x = y.
Proof.
  induction a as [|c r IH]; simpl; intros H; [exact H|].
  inversion H. apply IH. assumption.
Qed.

Lemma two_digits_inj (a b : Z) :
  0 <= a <= 99 -> 0 <= b <= 99 -> two_digits a = two_digits b -> a = b.
Proof.
  intros Ha Hb H.
  pose proof (two_digits_read_back a Ha) as Ra.
  pose proof (two_digits_read_back b Hb) as Rb.
  rewrite H, Rb in Ra. inversion Ra. reflexivity.
Qed.

Lemma strftime_pdf_inj (t1 t2 : struct_time) (x y : string) :
  valid_time t1 -> valid_time t2 ->
  (strftime_d_m_y_H_M t1 ++ x)%string = (strftime_d_m_y_H_M t2 ++ y)%string ->
  tm_mday t1 = tm_mday t2 /\ tm_mon t1 = tm_mon t2
  /\ tm_year t1 mod 100 = tm_year t2 mod 100
  /\ tm_hour t1 = tm_hour t2 /\ tm_min t1 = tm_min t2.
Proof.
  intros (Hm1 & Hd1 & Hh1 & Hn1) (Hm2 & Hd2 & Hh2 & Hn2) H.
  pose proof (Z.mod_pos_bound (tm_year t1) 100) as Hy1.
  pose proof (Z.mod_pos_bound (tm_year t2) 100) as Hy2.
  unfold strftime_d_m_y_H_M, two_digits in H. cbn [append] in H.
  injection H as E1 E2 E3 E4 E5 E6 E7 E8 E9 E10 _.
  repeat split; apply two_digits_inj; try lia; unfold two_digits; congruence.
Qed.

Lemma startswith_slash_after_prefix (p x y : string) :
  Str.startswith (p ++ String "_" x) "/" = Str.startswith (p ++ String "_" y) "/".
Proof.
  unfold Str.startswith. destruct p as [|c r].
  - reflexivity.
  - change (String.prefix "/" (String c r ++ String "_" x))
      with (if ascii_dec "/" c then String.prefix "" (r ++ String "_" x) else false).
    change (String.prefix "/" (String c r ++ String "_" y))
      with (if ascii_dec "/" c then String.prefix "" (r ++ String "_" y) else false).
    destruct (ascii_dec "/" c); [|reflexivity].
    destruct (r ++ String "_" x)%string, (r ++ String "_" y)%string; reflexivity.
Qed.

(** X15.  At two moments, both valid local times, [get_pdf_filename]
    gives the same name exactly when the day, the month, the last two
    digits of the year, the hour and the minute agree: two documents get
    the same name only within one minute, or a whole number of centuries
    apart. *)
Theorem get_pdf_filename_same_iff_same_minute (W1 W2 : world) (h : ImageHandler) :
  valid_time (localtime W1) ->
  valid_time (localtime W2) ->
  (get_pdf_filename W1 h = get_pdf_filename W2 h
   <-> tm_mday (localtime W1) = tm_mday (localtime W2)
       /\ tm_mon (localtime W1) = tm_mon (localtime W2)
       /\ tm_year (localtime W1) mod 100 = tm_year (localtime W2) mod 100
       /\ tm_hour (localtime W1) = tm_hour (localtime W2)
       /\ tm_min (localtime W1) = tm_min (localtime W2)).
Proof.
  intros V1 V2. split.
  - unfold get_pdf_filename, os_path_join.
    change ("_" ++ strftime_d_m_y_H_M (localtime W1) ++ ".pdf")
      with (String "_" (strftime_d_m_y_H_M (localtime W1) ++ ".pdf")).
    change ("_" ++ strftime_d_m_y_H_M (localtime W2) ++ ".pdf")
      with (String "_" (strftime_d_m_y_H_M (localtime W2) ++ ".pdf")).
    rewrite (startswith_slash_after_prefix (SAVE_PREFIX (CFG h))
               (strftime_d_m_y_H_M (localtime W1) ++ ".pdf")
               (strftime_d_m_y_H_M (localtime W2) ++ ".pdf")).
    intros H.
    assert (Hname : (SAVE_PREFIX (CFG h)
                     ++ String "_" (strftime_d_m_y_H_M (localtime W1) ++ ".pdf"))%string
                    = (SAVE_PREFIX (CFG h)
                       ++ String "_" (strftime_d_m_y_H_M (localtime W2) ++ ".pdf"))%string).
    { revert H. destruct (Str.startswith _ "/"); [intros H; exact H|].
      destruct (String.eqb (SAVE_PATH (CFG h)) ""
                || Str.ends_with_slash (SAVE_PATH (CFG h))); intros H.
      - apply (str_app_cancel_l _ _ _ H).
      - apply str_app_cancel_l in H. apply (str_app_cancel_l "/") in H. exact H. }
    apply str_app_cancel_l in Hname. apply (str_app_cancel_l "_") in Hname.
    apply (strftime_pdf_inj _ _ _ _ V1 V2 Hname).
  - intros (Ed & Em & Ey & Eh & En).
    unfold get_pdf_filename, strftime_d_m_y_H_M.
    rewrite Ed, Em, Ey, Eh, En. reflexivity.
Qed.

(** ** Resolution and page shape *)

Lemma A4_size_of_zero_dpi (cfg : config) :
  SAVE_DPI cfg = PyInt 0 \/ (exists s, SAVE_DPI cfg = PyFloat (S754_zero s)) ->
  A4_size cfg = Raise ZeroDivisionError.
Proof.
  intros [E|[s E]]; unfold A4_size; rewrite E; reflexivity.
Qed.

Lemma valid_size_up_to_2400 (dpi : Z) :
  1 <= dpi <= 2400 ->
  valid_size (fst (truncated_size dpi)) (snd (truncated_size dpi))
  /\ fst (truncated_size dpi) < snd (truncated_size dpi).
Proof.
  intros Hd. unfold truncated_size, valid_size, INT_MAX. cbn [fst snd].
  pose proof (Z.mul_div_le (2480 * 300) dpi) as A1.
  pose proof (Z.mul_succ_div_gt (2480 * 300) dpi) as A2.
  pose proof (Z.mul_div_le (3508 * 300) dpi) as B1.
  pose proof (Z.mul_succ_div_gt (3508 * 300) dpi) as B2.
  set (a := 2480 * 300 / dpi) in *. set (b := 3508 * 300 / dpi) in *.
  assert (Ha : 310 <= a <= 744000) by (split; nia).
  assert (Hb : a + 127 <= b <= 1052400) by (split; nia).
  destruct (existsb (Z.eqb dpi) width_one_short); lia.
Qed.

Section Resolution.

Variable W : world.

(** X16.  With [SAVE_DPI] zero, as an int or as a float of either
    sign, [save] of a list whose first image has two dimensions raises
    [ZeroDivisionError] once the output directory is there, and writes no
    file. *)
Theorem save_with_zero_dpi_raises
        (h : ImageHandler) (first : image) (rest : list image) :
  files h <> [] ->
  directory_ready W h ->
  channels first = None ->
  SAVE_DPI (CFG h) = PyInt 0
  \/ (exists s, SAVE_DPI (CFG h) = PyFloat (S754_zero s)) ->
  save W h (first :: rest) = (ensure_directory W h, Raise ZeroDivisionError)
  /\ files_written (fst (save W h (first :: rest))) = [].
Proof.
  intros Hf Hdir Hgrey Hdpi.
  assert (Hprep : prepared W (CFG h) (first :: rest) = Raise ZeroDivisionError).
  { rewrite (prepared_of_grey_first W _ first rest Hgrey).
    cbn [mapM]. unfold resize_to_A4 at 1.
    rewrite (A4_size_of_zero_dpi _ Hdpi). reflexivity. }
  assert (Hsave : save W h (first :: rest)
                  = (ensure_directory W h, Raise ZeroDivisionError)).
  { rewrite (save_steps W h _ Hf Hdir), Hprep. simpl. rewrite app_nil_r. reflexivity. }
  split; [exact Hsave|]. rewrite Hsave. simpl.
  apply (files_written_ensure_directory W h).
Qed.

End Resolution.

(** X17.  For a whole resolution from 1 to 2400, two non-empty
    images of any shapes are resized to the same number of rows and of
    columns, with more rows than columns: the page is upright whatever
    the shape of the scan. *)
Theorem resize_to_A4_is_upright (cfg : config) (img1 img2 : image) (dpi : Z) :
  1 <= dpi <= 2400 ->
  SAVE_DPI cfg = PyInt dpi \/ SAVE_DPI cfg = PyFloat (Float.of_int dpi) ->
  nonempty img1 = true ->
  nonempty img2 = true ->
  exists r1 r2,
    resize_to_A4 cfg img1 = Ok r1 /\ resize_to_A4 cfg img2 = Ok r2
    /\ rows r1 = rows r2 /\ cols r1 = cols r2 /\ cols r1 < rows r1.
Proof.
  intros Hd Hdpi H1 H2.
  destruct (A4_size_up_to_2400 dpi Hd) as [Hint Hfloat].
  assert (Hsize : A4_size cfg = Ok (fst (truncated_size dpi), snd (truncated_size dpi))).
  { rewrite A4_size_depends_on_dpi. rewrite <- surjective_pairing.
    destruct Hdpi as [E|E]; rewrite E; assumption. }
  destruct (valid_size_up_to_2400 dpi Hd) as [Hvalid Hup].
  exists (resized (fst (truncated_size dpi)) (snd (truncated_size dpi)) img1),
         (resized (fst (truncated_size dpi)) (snd (truncated_size dpi)) img2).
  split; [apply resize_to_A4_ok; assumption|].
  split; [apply resize_to_A4_ok; assumption|].
  cbn [resized rows cols]. repeat split. exact Hup.
Qed.

Section GreyDocument.

Variable W : world.

(** X18.  With a format that is not an image format, files held and
    non-empty images of two dimensions, [save] leaves one document whose
    pages are the images in the order given, each resized and in mode
    [L], after creating the output directory if it was missing. *)
Theorem save_grey_pages_as_one_document
        (h : ImageHandler) (first : image) (rest : list image) (w hh : Z) :
  files h <> [] ->
  Str.mem (Str.lower (SAVE_FORMAT (CFG h))) IMAGE_FORMATS = false ->
  directory_ready W h ->
  Forall (fun img => channels img = None /\ nonempty img = true) (first :: rest) ->
  A4_size (CFG h) = Ok (w, hh) ->
  valid_size w hh ->
  pdf_save W (get_pdf_filename W h)
           (map (fun img => {| mode := L; raster_of := resized w hh img |})
                (first :: rest)) = None ->
  save W h (first :: rest)
  = ((ensure_directory W h
      ++ [PdfFile (get_pdf_filename W h)
                  (map (fun img => {| mode := L; raster_of := resized w hh img |})
                       (first :: rest))])%list,
     Ok tt).
Proof.
  intros Hf Hfmt Hdir Hall Hsize Hvalid Hpdf.
  assert (Hgrey : channels first = None).
  { inversion Hall as [|x l [Hx _] _]. exact Hx. }
  assert (Hprep : prepared W (CFG h) (first :: rest)
                  = Ok (map (resized w hh) (first :: rest))).
  { rewrite (prepared_of_grey_first W _ first rest Hgrey).
    apply mapM_Forall. rewrite Forall_forall in *. intros img Hin.
    apply resize_to_A4_ok; try assumption. apply (Hall img Hin). }
  assert (Hpages : mapM Image_fromarray (map (resized w hh) (first :: rest))
                   = Ok (map (fun img => {| mode := L; raster_of := resized w hh img |})
                             (first :: rest))).
  { rewrite <- (map_map (resized w hh)
                        (fun img => {| mode := L; raster_of := img |})).
    apply mapM_Forall. rewrite Forall_forall in *. intros img Hin.
    apply in_map_iff in Hin. destruct Hin as (img0 & <- & Hin0).
    unfold Image_fromarray, resized. cbn [channels].
    rewrite (proj1 (Hall img0 Hin0)). reflexivity. }
  rewrite (save_steps W h _ Hf Hdir), Hprep, Hfmt.
  unfold save_as_pdf. rewrite Hpages, io_bind_lift.
  cbn [map] in *. rewrite Hpdf. reflexivity.
Qed.

End GreyDocument.

(** ** The scanner, exporting *)

Lemma scanner_size :
  A4_size (scanner_config "pdf") = Ok (2480, 3508) /\ valid_size 2480 3508.
Proof.
  split; [vm_compute; reflexivity|]. unfold valid_size, INT_MAX. lia.
Qed.

Lemma prepared_grey_first_swaps_nothing_witness :
  channels (grey_page "a") = None
  /\ Forall (fun img => nonempty img = true) [grey_page "a"; colour_page "b"]
  /\ A4_size (scanner_config "pdf") = Ok (2480, 3508)
  /\ valid_size 2480 3508
  /\ prepared scanner_world (scanner_config "pdf") [grey_page "a"; colour_page "b"]
     = Ok [resized 2480 3508 (grey_page "a"); resized 2480 3508 (colour_page "b")].
Proof.
  assert (Hne : Forall (fun img => nonempty img = true)
                       [grey_page "a"; colour_page "b"])
    by (repeat constructor).
  split; [reflexivity|]. split; [exact Hne|].
  split; [exact (proj1 scanner_size)|]. split; [exact (proj2 scanner_size)|].
  exact (prepared_grey_first_swaps_nothing scanner_world (scanner_config "pdf") (grey_page "a")
           [colour_page "b"] 2480 3508 eq_refl Hne
           (proj1 scanner_size) (proj2 scanner_size)).
Defined.

Lemma prepared_colour_swaps_all_witness :
  Forall (fun img => is_colour img = true) [colour_page "a"; colour_page "b"]
  /\ A4_size (scanner_config "pdf") = Ok (2480, 3508)
  /\ valid_size 2480 3508
  /\ prepared scanner_world (scanner_config "pdf") [colour_page "a"; colour_page "b"]
     = Ok [resized 2480 3508 (swapped (colour_page "a"));
           resized 2480 3508 (swapped (colour_page "b"))].
Proof.
  assert (Hcol : Forall (fun img => is_colour img = true)
                        [colour_page "a"; colour_page "b"])
    by (repeat constructor).
  split; [exact Hcol|].
  split; [exact (proj1 scanner_size)|]. split; [exact (proj2 scanner_size)|].
  exact (proj1 (prepared_colour_swaps_all scanner_world (scanner_config "pdf") (colour_page "a")
                  [colour_page "b"] 2480 3508 Hcol
                  (proj1 scanner_size) (proj2 scanner_size))).
Defined.

Lemma save_ignores_imwrite_result_witness :
  files (scanner_handler "JPG") <> []
  /\ Str.mem (Str.lower "JPG") IMAGE_FORMATS = true
  /\ directory_ready full_disk_world (scanner_handler "JPG")
  /\ (forall p img, cv2_imwrite full_disk_world p img <> ImwriteError)
  /\ prepared scanner_world (scanner_config "JPG") [grey_page "a"; grey_page "b"]
     = Ok [a4_page "a"; a4_page "b"]
  /\ snd (save full_disk_world (scanner_handler "JPG") [grey_page "a"; grey_page "b"])
     = Ok tt
  /\ image_files (fst (save full_disk_world (scanner_handler "JPG")
                           [grey_page "a"; grey_page "b"]))
     = [("out/IMG_000007.jpg", a4_page "a")].
Proof.
  assert (Hf : files (scanner_handler "JPG") <> []) by discriminate.
  assert (Hdir : directory_ready full_disk_world (scanner_handler "JPG"))
    by (right; reflexivity).
  assert (Hw : forall p img, cv2_imwrite full_disk_world p img <> ImwriteError).
  { intros p img. simpl. destruct (String.eqb p "out/IMG_000012.jpg"); discriminate. }
  assert (Hprep : prepared scanner_world (scanner_config "JPG") [grey_page "a"; grey_page "b"]
                  = Ok [a4_page "a"; a4_page "b"]) by (vm_compute; reflexivity).
  assert (Hlen : (List.length [grey_page "a"; grey_page "b"]
                  <= List.length (files (scanner_handler "JPG")))%nat)
    by (simpl; lia).
  split; [exact Hf|]. split; [reflexivity|]. split; [exact Hdir|].
  split; [exact Hw|]. split; [exact Hprep|].
  exact (save_ignores_imwrite_result full_disk_world (scanner_handler "JPG")
           [grey_page "a"; grey_page "b"] [a4_page "a"; a4_page "b"]
           Hf eq_refl Hdir Hw Hprep Hlen).
Defined.

Lemma save_propagates_mkdir_error_witness :
  files (scanner_handler "pdf") <> []
  /\ os_path_exists read_only_world "out" = false
  /\ os_mkdir read_only_world "out" = Some OSError
  /\ save read_only_world (scanner_handler "pdf") [grey_page "a"]
     = ([], Raise OSError).
Proof.
  assert (Hf : files (scanner_handler "pdf") <> []) by discriminate.
  split; [exact Hf|]. split; [reflexivity|]. split; [reflexivity|].
  exact (save_propagates_mkdir_error read_only_world (scanner_handler "pdf")
           [grey_page "a"] OSError Hf eq_refl eq_refl).
Defined.

Lemma save_of_too_many_images_raises_witness :
  files (scanner_handler "JPG") <> []
  /\ Str.mem (Str.lower "JPG") IMAGE_FORMATS = true
  /\ directory_ready scanner_world (scanner_handler "JPG")
  /\ prepared scanner_world (scanner_config "JPG") [grey_page "a"; grey_page "b"; grey_page "c"]
     = Ok [a4_page "a"; a4_page "b"; a4_page "c"]
  /\ (List.length (files (scanner_handler "JPG"))
      < List.length [grey_page "a"; grey_page "b"; grey_page "c"])%nat
  /\ snd (save scanner_world (scanner_handler "JPG")
               [grey_page "a"; grey_page "b"; grey_page "c"]) = Raise IndexError
  /\ image_files (fst (save scanner_world (scanner_handler "JPG")
                           [grey_page "a"; grey_page "b"; grey_page "c"]))
     = [("out/IMG_000007.jpg", a4_page "a"); ("out/IMG_000012.jpg", a4_page "b")].
Proof.
  assert (Hf : files (scanner_handler "JPG") <> []) by discriminate.
  assert (Hdir : directory_ready scanner_world (scanner_handler "JPG"))
    by (right; reflexivity).
  assert (Hprep : prepared scanner_world (scanner_config "JPG")
                           [grey_page "a"; grey_page "b"; grey_page "c"]
                  = Ok [a4_page "a"; a4_page "b"; a4_page "c"])
    by (vm_compute; reflexivity).
  assert (Hlen : (List.length (files (scanner_handler "JPG"))
                  < List.length [grey_page "a"; grey_page "b"; grey_page "c"])%nat)
    by (simpl; lia).
  split; [exact Hf|]. split; [reflexivity|]. split; [exact Hdir|].
  split; [exact Hprep|]. split; [exact Hlen|].
  destruct (save_of_too_many_images_raises scanner_world (scanner_handler "JPG")
              [grey_page "a"; grey_page "b"; grey_page "c"]
              [a4_page "a"; a4_page "b"; a4_page "c"]
              Hf eq_refl Hdir (fun _ _ => eq_refl) Hprep Hlen) as (H1 & H2 & _).
  split; [exact H1 | exact H2].
Defined.

Lemma get_pdf_filename_same_iff_same_minute_witness :
  valid_time (localtime scanner_world)
  /\ valid_time (localtime scanner_world_in_2124)
  /\ get_pdf_filename scanner_world (scanner_handler "pdf")
     = get_pdf_filename scanner_world_in_2124 (scanner_handler "pdf").
Proof.
  assert (V1 : valid_time (localtime scanner_world))
    by (unfold valid_time; simpl; lia).
  assert (V2 : valid_time (localtime scanner_world_in_2124))
    by (unfold valid_time; simpl; lia).
  split; [exact V1|]. split; [exact V2|].
  apply (proj2 (get_pdf_filename_same_iff_same_minute scanner_world
                  scanner_world_in_2124 (scanner_handler "pdf") V1 V2)).
  repeat split.
Defined.

Lemma save_with_zero_dpi_raises_witness :
  files zero_dpi_handler <> []
  /\ directory_ready scanner_world zero_dpi_handler
  /\ channels (grey_page "a") = None
  /\ save scanner_world zero_dpi_handler [grey_page "a"]
     = ([Mkdir "out"], Raise ZeroDivisionError).
Proof.
  assert (Hf : files zero_dpi_handler <> []) by discriminate.
  assert (Hdir : directory_ready scanner_world zero_dpi_handler)
    by (right; reflexivity).
  split; [exact Hf|]. split; [exact Hdir|]. split; [reflexivity|].
  exact (proj1 (save_with_zero_dpi_raises scanner_world zero_dpi_handler
                  (grey_page "a") [] Hf Hdir eq_refl
                  (or_intror (ex_intro _ true eq_refl)))).
Defined.

Lemma resize_to_A4_is_upright_witness :
  1 <= 300 <= 2400
  /\ nonempty (grey_page "a") = true
  /\ nonempty (sideways_page "b") = true
  /\ exists r1 r2,
       resize_to_A4 (scanner_config "pdf") (grey_page "a") = Ok r1
       /\ resize_to_A4 (scanner_config "pdf") (sideways_page "b") = Ok r2
       /\ rows r1 = rows r2 /\ cols r1 = cols r2 /\ cols r1 < rows r1.
Proof.
  split; [lia|]. split; [reflexivity|]. split; [reflexivity|].
  apply (resize_to_A4_is_upright (scanner_config "pdf") (grey_page "a")
           (sideways_page "b") 300).
  - lia.
  - left. reflexivity.
  - reflexivity.
  - reflexivity.
Defined.

Lemma save_grey_pages_as_one_document_witness :
  files (scanner_handler "pdf") <> []
  /\ Str.mem (Str.lower "pdf") IMAGE_FORMATS = false
  /\ directory_ready scanner_world (scanner_handler "pdf")
  /\ Forall (fun img => channels img = None /\ nonempty img = true)
            [grey_page "a"; sideways_page "b"]
  /\ save scanner_world (scanner_handler "pdf") [grey_page "a"; sideways_page "b"]
     = ([Mkdir "out";
         PdfFile "out/scan_09_03_24-14_05.pdf"
                 [ {| mode := L; raster_of := resized 2480 3508 (grey_page "a") |};
                   {| mode := L; raster_of := resized 2480 3508 (sideways_page "b") |} ]],
        Ok tt).
Proof.
  assert (Hf : files (scanner_handler "pdf") <> []) by discriminate.
  assert (Hdir : directory_ready scanner_world (scanner_handler "pdf"))
    by (right; reflexivity).
  assert (Hall : Forall (fun img => channels img = None /\ nonempty img = true)
                        [grey_page "a"; sideways_page "b"])
    by (repeat constructor).
  split; [exact Hf|]. split; [reflexivity|]. split; [exact Hdir|].
  split; [exact Hall|].
  exact (save_grey_pages_as_one_document scanner_world (scanner_handler "pdf")
           (grey_page "a") [sideways_page "b"] 2480 3508
           Hf eq_refl Hdir Hall (proj1 scanner_size) (proj2 scanner_size) eq_refl).
Defined.

(** ** One cursor *)

Section OneCursor.

Context {AS : ArgSort}.
Variable W : world.

(** X19.  The handler is its own iterator and has one cursor: when
    a loop over a constructed handler that holds files has taken its
    first pair and a second loop over the same handler runs inside it, the
    second loop yields every pair and leaves the cursor at the end, so the
    first loop gets [StopIteration] on its next step. *)
Theorem nested_loop_exhausts_outer_loop
        (cfg : config) (h : ImageHandler) (fuel : nat) :
  constructed W cfg h ->
  files h <> [] ->
  (len h < fuel)%nat ->
  exists item outer inner,
    next (iter h) = (Ok item, outer)
    /\ nth_error (items h) 0 = Some item
    /\ for_loop fuel outer = Some (Ok (items h), inner)
    /\ next inner = (Raise StopIteration, inner).
Proof.
  intros [_ Hinit] Hne Hfuel.
  pose proof (init_consistent W cfg h Hinit) as Hc.
  destruct (consistent_length W h Hc) as [_ Hlen].
  unfold len in Hfuel.
  assert (Hpos : (0 < List.length (files h))%nat).
  { destruct (files h); [contradiction | simpl; lia]. }
  destruct (next_in_range (iter h)) as (item & Hitem & Hnext).
  - exact Hlen.
  - exact Hpos.
  - destruct fuel as [|n]; [lia|].
    exists item, (set_cnt (iter h) 1), (set_cnt h (List.length (files h))).
    split; [exact Hnext|]. split; [exact Hitem|]. split.
    + unfold for_loop, iter. rewrite next_loop_from; simpl; try lia; try assumption.
      reflexivity.
    + unfold next. simpl. rewrite Nat.eqb_refl. reflexivity.
Qed.

(** X20.  In a constructed handler the image at each position is
    what [cv2.imread] returned for the file at that position, read in
    grey levels when [READ_GRAYSCALE] is set and in colour otherwise; a
    file that is not decoded is held as [None]. *)
Theorem load_reads_each_file_held (cfg : config) (h : ImageHandler) :
  constructed W cfg h ->
  images h
  = map (fun f => cv2_imread W f (if READ_GRAYSCALE cfg
                                   then IMREAD_GRAYSCALE else IMREAD_COLOR))
        (files h)
  /\ forall i f, nth_error (files h) i = Some f ->
                 nth_error (images h) i
                 = Some (cv2_imread W f (if READ_GRAYSCALE cfg
                                          then IMREAD_GRAYSCALE else IMREAD_COLOR)).
Proof.
  intros [_ Hinit].
  pose proof (init_consistent W cfg h Hinit) as Hc.
  destruct (init_fields W cfg h Hinit) as (_ & _ & Hflag).
  assert (Himg : images h
                 = map (fun f => cv2_imread W f (if READ_GRAYSCALE cfg
                                                  then IMREAD_GRAYSCALE
                                                  else IMREAD_COLOR)) (files h)).
  { rewrite (images_of_files W h Hc), Hflag. reflexivity. }
  split; [exact Himg|].
  intros i f Hf. rewrite Himg.
  exact (map_nth_error
           (fun f0 => cv2_imread W f0 (if READ_GRAYSCALE cfg
                                       then IMREAD_GRAYSCALE else IMREAD_COLOR))
           i (files h) Hf).
Qed.

End OneCursor.

Lemma nested_loop_exhausts_outer_loop_witness :
  constructed (AS := merge_ArgSort) scanner_world (scanner_config "pdf")
              (scanner_handler "pdf")
  /\ files (scanner_handler "pdf") <> []
  /\ (len (scanner_handler "pdf") < 3)%nat
  /\ exists item outer inner,
       next (iter (scanner_handler "pdf")) = (Ok item, outer)
       /\ nth_error (items (scanner_handler "pdf")) 0 = Some item
       /\ for_loop 3 outer = Some (Ok (items (scanner_handler "pdf")), inner)
       /\ next inner = (Raise StopIteration, inner).
Proof.
  assert (Hne : files (scanner_handler "pdf") <> []) by discriminate.
  assert (Hfuel : (len (scanner_handler "pdf") < 3)%nat) by (vm_compute; reflexivity).
  split; [exact (scanner_handler_constructed "pdf")|].
  split; [exact Hne|]. split; [exact Hfuel|].
  exact (nested_loop_exhausts_outer_loop (AS := merge_ArgSort) scanner_world
           (scanner_config "pdf") (scanner_handler "pdf") 3
           (scanner_handler_constructed "pdf") Hne Hfuel).
Defined.

Lemma load_reads_each_file_held_witness :
  constructed (AS := merge_ArgSort) scanner_world (scanner_config "pdf")
              (scanner_handler "pdf")
  /\ images (scanner_handler "pdf")
     = map (fun f => cv2_imread scanner_world f IMREAD_GRAYSCALE)
           (files (scanner_handler "pdf")).
Proof.
  split; [exact (scanner_handler_constructed "pdf")|].
  exact (proj1 (load_reads_each_file_held (AS := merge_ArgSort) scanner_world
                  (scanner_config "pdf") (scanner_handler "pdf")
                  (scanner_handler_constructed "pdf"))).
Defined.
